(** * Mock server engine: a shallow embedding of [ServerService]

    Source: src/app/services/server.service.ts and
    src/app/types/environment.type.ts.

    Strings are Rocq strings (sequences of 8-bit code units).  The
    service object, the Express application and the response object are
    explicit state; exceptions are values of [Js.Error] threaded through
    a small state-and-exception monad, because a [catch] block of the
    source observes the mutations made before the [throw]. *)

From Stdlib Require Import String Ascii List ZArith Lia Bool.
From stdpp Require Import base option list gmap strings.


(** ** JavaScript primitives *)

Module Js.

(** An [Error] object: the optional [code] (set by the file system
    layer, e.g. ENOENT) and the [message]. *)
Record Error := mkError { code : option string; message : string }.

(** Truthiness of a string: only the empty string is falsy. *)
Definition truthy (s : string) : bool :=
  match s with EmptyString => false | String _ _ => true end.

(** Truthiness of an optional property: [undefined] is falsy. *)
Definition truthyOpt (o : option string) : bool :=
  match o with None => false | Some s => truthy s end.

(** [s.indexOf(sub) > -1] *)
Definition includes (sub s : string) : bool :=
  match String.index 0 sub s with Some _ => true | None => false end.

(** [s.replace(/ /g, '%20')] *)
Fixpoint replaceSpaces (s : string) : string :=
  match s with
  | EmptyString => EmptyString
  | String c r =>
      if Ascii.eqb c " "%char then "%20" +:+ replaceSpaces r
      else String c (replaceSpaces r)
  end.

Definition isUpper (c : ascii) : bool :=
  let n := nat_of_ascii c in (65 <=? n)%nat && (n <=? 90)%nat.
Definition isLower (c : ascii) : bool :=
  let n := nat_of_ascii c in (97 <=? n)%nat && (n <=? 122)%nat.
Definition isDigit (c : ascii) : bool :=
  let n := nat_of_ascii c in (48 <=? n)%nat && (n <=? 57)%nat.

Definition toLowerChar (c : ascii) : ascii :=
  if isUpper c then ascii_of_nat (nat_of_ascii c + 32) else c.

(** [s.toLowerCase()] on the code units the model has. *)
Fixpoint toLowerCase (s : string) : string :=
  match s with
  | EmptyString => EmptyString
  | String c r => String (toLowerChar c) (toLowerCase r)
  end.

(** [String(v)] for a value of type [string | false]. *)
Definition stringOrFalse (o : option string) : string :=
  match o with Some s => s | None => "false" end.

(** [s.split(sep)] for a separator of one character. *)
Fixpoint split (sep : ascii) (s : string) : list string :=
  match s with
  | EmptyString => [EmptyString]
  | String c r =>
      if Ascii.eqb c sep then EmptyString :: split sep r
      else match split sep r with
           | h :: t => String c h :: t
           | [] => [String c EmptyString]
           end
  end.

(** The one-character string holding a double quote. *)
Definition dquote : string := String (ascii_of_nat 34) EmptyString.

End Js.

(** ** Data model *)

(** Modelled from the spec: [HeaderType] of src/app/types/route.type.ts,
    the (key, value-template) pair.  [setHeaders] receives
    [Partial<HeaderType>], so both properties may be absent. *)
Module HeaderType.
Record t := mk { key : option string; value : option string }.
End HeaderType.

(** Modelled from the spec: the [method] union of [RouteType]. *)
Inductive Method := GET | POST | PUT | PATCH | DELETE | HEAD | OPTIONS.

#[global] Instance Method_eq_dec : EqDecision Method.
Proof. solve_decision. Defined.

(** Modelled from the spec: [RouteType] of src/app/types/route.type.ts,
    with the properties [ServerService] reads. *)
Module RouteType.
Record t := mk {
  method : Method;
  endpoint : string;
  body : string;
  latency : Z;
  statusCode : Z;
  headers : list HeaderType.t;
  filePath : string;
  sendFileAsBody : bool;
  duplicates : list nat
}.
End RouteType.

(** [EnvironmentType] of src/app/types/environment.type.ts. *)
Module EnvironmentType.
Record t := mk {
  uuid : string;
  running : bool;
  name : string;
  port : Z;
  endpointPrefix : string;
  latency : Z;
  routes : list RouteType.t;
  startedAt : option Z;
  modifiedAt : option Z;
  needRestart : option bool;
  proxyMode : bool;
  proxyHost : string;
  https : bool;
  cors : bool;
  headers : list HeaderType.t;
  duplicates : list nat
}.
End EnvironmentType.

(** An inbound request as the handlers see it. *)
Module Request.
Record t := mk {
  method : Method;
  path : string;
  headers : list (string * string);
  body : string;
  proxied : bool
}.
End Request.

(** [alertService.showAlert(type, message)] *)
Definition Alert : Type := string * string.

(** The [Errors] enum of src/app/enums/errors.enum.ts, whose texts are
    not part of the sources at hand. *)
Record ErrorsEnum := {
  PORT_ALREADY_USED : string;
  PORT_INVALID : string;
  INVALID_ROUTE_REGEX : string;
  FILE_NOT_EXISTS : string;
  TEMPLATE_PARSE : string;
  JSON_PARSE : string;
  MISSING_HELPER : string;
  INVALID_CONTENT_TYPE : string
}.

(** ** The response object

    The record holds what the service has asked of the response: the
    status, the headers set so far (Node keeps them by lower-cased
    name), the chunk handed to [send] or [end], and whether the
    response is finished.  The methods are modelled up to their last
    point of failure, because the [catch] blocks of the service depend
    on what they throw; what Express derives afterwards when it writes
    the message (Content-Length, ETag, the body dropped for a 204, a
    304 or a HEAD request) is outside the model. *)

Inductive Body :=
| BString (s : string)
| BBuffer (s : string).

Module Response.
Record t := mk {
  statusCode : Z;
  headers : gmap string string;
  body : option Body;
  headersSent : bool
}.

(** [res.get(field)]: header names are case-insensitive. *)
Definition get (field : string) (r : t) : option string :=
  headers r !! Js.toLowerCase field.
End Response.

(** What a request handler can reach: the response and the alert sink. *)
Record HState := mkHState { res : Response.t; alerts : list Alert }.

(** State and exceptions: the state survives a [throw]. *)
Definition M (A : Type) : Type := HState -> HState * (Js.Error + A).

#[global] Instance M_ret : MRet M := fun A a s => (s, inr a).
#[global] Instance M_bind : MBind M := fun A B f m s =>
  match m s with
  | (s', inl e) => (s', inl e)
  | (s', inr a) => f a s'
  end.

Definition throw {A} (e : Js.Error) : M A := fun s => (s, inl e).

(** [try { m } catch (error) { h error }] *)
Definition tryCatch {A} (m : M A) (h : Js.Error -> M A) : M A := fun s =>
  match m s with
  | (s', inl e) => h e s'
  | (s', inr a) => (s', inr a)
  end.

(** A call of a function that returns or throws. *)
Definition call {A} (r : Js.Error + A) : M A := fun s => (s, r).

Definition getRes : M Response.t := fun s => (s, inr (res s)).
Definition putRes (r : Response.t) : M unit :=
  fun s => ({| res := r; alerts := alerts s |}, inr tt).
Definition showAlert (type message : string) : M unit :=
  fun s => ({| res := res s; alerts := alerts s ++ [(type, message)] |}, inr tt).
Definition when (b : bool) (m : M unit) : M unit := if b then m else mret tt.

(** ** Header names and values *)

(** The class [A-Za-z0-9\-\!\#\$\%\&\'\*\+\.\^\_\`\|\~] *)
Definition isTokenChar (c : ascii) : bool :=
  Js.isUpper c || Js.isLower c || Js.isDigit c
  || existsb (Ascii.eqb c) (list_ascii_of_string "-!#$%&'*+.^_`|~").

(** [headerName.match(/[^...]/g)] is non-null. *)
Definition hasNonTokenChar (s : string) : bool :=
  existsb (fun c => negb (isTokenChar c)) (list_ascii_of_string s).

(** [testHeaderValidity]: true when the name is NOT a valid token. *)
Definition testHeaderValidity (headerName : string) : bool :=
  if Js.truthy headerName && hasNonTokenChar headerName then true else false.

(** Node's check of a header value: only tab, 0x20-0x7e and 0x80-0xff. *)
Definition isHeaderValueChar (c : ascii) : bool :=
  let n := nat_of_ascii c in
  (n =? 9)%nat || ((32 <=? n)%nat && negb (n =? 127)%nat).

Definition validHeaderValue (s : string) : bool :=
  forallb isHeaderValueChar (list_ascii_of_string s).

(** Node's check of a header name: a non-empty token. *)
Definition validHeaderName (s : string) : bool :=
  Js.truthy s && negb (hasNonTokenChar s).

(** ** Collaborators *)

(** The libraries the service calls.  Each member stands for the call
    of the same name; a call that can throw returns [Js.Error + _]. *)
Class Platform := {
  JSONValue : Type;
  (** [DummyJSONParser(template, req)], the template renderer *)
  DummyJSONParser : string -> Request.t -> Js.Error + string;
  JSON_parse : string -> Js.Error + JSONValue;
  JSON_stringify : JSONValue -> string;
  (** [fs.readFileSync(path)] on the file system of the moment *)
  readFileSync : string -> Js.Error + string;
  (** [mimeTypes.lookup(path)]: a mime type, or [false] *)
  mimeTypes_lookup : string -> option string;
  path_basename : string -> string;
  (** the matcher Express compiles from a route path, or the error it
      throws for a malformed pattern *)
  pathToRegexp : string -> Js.Error + (string -> bool);
  (** the value [res.set] stores for a Content-Type: Express appends
      the default charset of the type when none is given *)
  withDefaultCharset : string -> string;
  (** Express' [setCharset(type, 'utf-8')]; [None] when the media type
      cannot be parsed, where Express throws "invalid media type" *)
  setCharset : string -> option string;
  (** what the upstream answers through [http-proxy-middleware] *)
  proxyForward : string -> Request.t -> Response.t
}.

(** The parts of this repository that the service reads and that are
    declared outside the two source files. *)
Class Settings `{Platform} := {
  LogEntry : Type;
  (** [Config.maxLogsPerEnvironment] *)
  maxLogsPerEnvironment : nat;
  (** [mimeTypesWithTemplating] of route.type.ts *)
  mimeTypesWithTemplating : list string;
  (** [CORSHeaders] of route.type.ts *)
  CORSHeaders : list HeaderType.t;
  Errors : ErrorsEnum;
  (** [ExpressMiddlewares]: each rewrites the request (body parsing) *)
  ExpressMiddlewares : list (Request.t -> Request.t);
  (** [Utils.getRouteContentType(environment, route)]; empty when no
      content type is configured *)
  getRouteContentType : EnvironmentType.t -> RouteType.t -> string;
  (** [dataService.formatRequestLog(req)] *)
  formatRequestLog : Request.t -> LogEntry
}.

(** ** Express response methods *)

Section ResponseMethods.
Context `{Platform}.

(** Node's [setHeader]: refused once the head is sent, for a name that
    is not a token and for a value with a forbidden character; the
    value is kept under the lower-cased name. *)
Definition setHeader (name value : string) : M unit :=
  r ← getRes;
  if Response.headersSent r then
    throw (Js.mkError (Some "ERR_HTTP_HEADERS_SENT")
             "Cannot set headers after they are sent to the client")
  else if negb (validHeaderName name) then
    throw (Js.mkError (Some "ERR_INVALID_HTTP_TOKEN")
             "Header name must be a valid HTTP token")
  else if negb (validHeaderValue value) then
    throw (Js.mkError (Some "ERR_INVALID_CHAR")
             "Invalid character in header content")
  else
    putRes {| Response.statusCode := Response.statusCode r;
              Response.headers := <[Js.toLowerCase name := value]> (Response.headers r);
              Response.body := Response.body r;
              Response.headersSent := Response.headersSent r |}.

(** [res.set(field, value)] *)
Definition res_set (field value : string) : M unit :=
  if String.eqb (Js.toLowerCase field) "content-type"
  then setHeader field (withDefaultCharset value)
  else setHeader field value.

(** [res.status(code)] *)
Definition res_status (code : Z) : M unit :=
  r ← getRes;
  putRes {| Response.statusCode := code;
            Response.headers := Response.headers r;
            Response.body := Response.body r;
            Response.headersSent := Response.headersSent r |}.

(** [res.end(chunk)]: nothing happens on a finished response. *)
Definition res_end (chunk : option Body) : M unit :=
  r ← getRes;
  if Response.headersSent r then mret tt
  else putRes {| Response.statusCode := Response.statusCode r;
                 Response.headers := Response.headers r;
                 Response.body := chunk;
                 Response.headersSent := true |}.

(** [res.send(chunk)]: a default Content-Type by kind of chunk, the
    charset reflected into the Content-Type of a string, then [end]. *)
Definition res_send (chunk : Body) : M unit :=
  r ← getRes;
  match chunk with
  | BString _ =>
      when (negb (Js.truthyOpt (Response.get "Content-Type" r)))
           (res_set "Content-Type" "text/html") ;;
      r' ← getRes;
      match Response.get "Content-Type" r' with
      | Some type =>
          match setCharset type with
          | Some v => res_set "Content-Type" v
          | None => throw (Js.mkError None "invalid media type")
          end
      | None => mret tt
      end
  | BBuffer _ =>
      when (negb (Js.truthyOpt (Response.get "Content-Type" r)))
           (res_set "Content-Type" "application/octet-stream")
  end ;;
  res_end (Some chunk).

(** [res.json(value)] *)
Definition res_json (v : JSONValue) : M unit :=
  r ← getRes;
  when (negb (Js.truthyOpt (Response.get "Content-Type" r)))
       (res_set "Content-Type" "application/json") ;;
  res_send (BString (JSON_stringify v)).

End ResponseMethods.

(** ** The URL constructor *)

(** A model of Node's [new URL(input)] without a base, after the states
    of the WHATWG parser that can fail: scheme, authority, host and
    port (the path, query and fragment states never fail).  The host
    parser is reduced to what the parser checks on ASCII hosts: a
    bracketed literal must be closed, and no forbidden host code point
    may occur; IDNA mapping and the numeric IPv4/IPv6 checks are
    outside the model. *)
Module Url.

Record t := mk { protocol : string; host : string; port : string }.

Definition isAlpha (c : ascii) : bool := Js.isUpper c || Js.isLower c.

Definition oneOf (chars : string) (c : ascii) : bool :=
  existsb (Ascii.eqb c) (list_ascii_of_string chars).

Definition isSchemeChar (c : ascii) : bool :=
  isAlpha c || Js.isDigit c || oneOf "+-." c.

Definition isC0OrSpace (c : ascii) : bool := (nat_of_ascii c <=? 32)%nat.

Definition isTabOrNewline (c : ascii) : bool :=
  let n := nat_of_ascii c in (n =? 9)%nat || (n =? 10)%nat || (n =? 13)%nat.

Fixpoint dropWhile (p : ascii -> bool) (l : list ascii) : list ascii :=
  match l with
  | [] => []
  | c :: r => if p c then dropWhile p r else l
  end.

(** The prefix before the first character satisfying [p], and the rest. *)
Fixpoint break (p : ascii -> bool) (l : list ascii) : list ascii * list ascii :=
  match l with
  | [] => ([], [])
  | c :: r => if p c then ([], l) else let '(a, b) := break p r in (c :: a, b)
  end.

(** What follows the last occurrence of [x], if [x] occurs. *)
Fixpoint afterLast (x : ascii) (l : list ascii) : option (list ascii) :=
  match l with
  | [] => None
  | c :: r =>
      match afterLast x r with
      | Some t => Some t
      | None => if Ascii.eqb c x then Some r else None
      end
  end.

(** Leading and trailing C0 controls and spaces are stripped, tabs and
    newlines are removed. *)
Definition preprocess (input : string) : list ascii :=
  let l := list_ascii_of_string input in
  let l := rev (dropWhile isC0OrSpace (rev (dropWhile isC0OrSpace l))) in
  List.filter (fun c => negb (isTabOrNewline c)) l.

(** Scheme state: the scheme ends at the first colon; anything else
    leads to the no-scheme state, a failure without a base. *)
Fixpoint schemeState (buffer input : list ascii) : option (list ascii * list ascii) :=
  match input with
  | [] => None
  | c :: r =>
      if isSchemeChar c then schemeState (buffer ++ [Js.toLowerChar c]) r
      else if Ascii.eqb c ":"%char then Some (buffer, r)
      else None
  end.

(** Scheme start state *)
Definition schemeStartState (input : list ascii) : option (list ascii * list ascii) :=
  match input with
  | c :: r => if isAlpha c then schemeState [Js.toLowerChar c] r else None
  | [] => None
  end.

Definition isSpecial (scheme : string) : bool :=
  existsb (String.eqb scheme) ["ftp"; "file"; "http"; "https"; "ws"; "wss"].

Definition backslash : ascii := ascii_of_nat 92.

Definition isSlash (special : bool) (c : ascii) : bool :=
  Ascii.eqb c "/"%char || (special && Ascii.eqb c backslash).

Definition endsAuthority (special : bool) (c : ascii) : bool :=
  isSlash special c || oneOf "?#" c.

(** Host state: the host ends at the first colon outside brackets. *)
Fixpoint hostState (inBrackets : bool) (buffer input : list ascii)
  : list ascii * option (list ascii) :=
  match input with
  | [] => (buffer, None)
  | c :: r =>
      if Ascii.eqb c ":"%char && negb inBrackets then (buffer, Some r)
      else hostState (if Ascii.eqb c "["%char then true
                      else if Ascii.eqb c "]"%char then false
                      else inBrackets) (buffer ++ [c]) r
  end.

Definition isForbiddenHostChar (special : bool) (c : ascii) : bool :=
  let n := nat_of_ascii c in
  (n =? 0)%nat || (n =? 32)%nat || oneOf "#/:<>?@[\]^|" c
  || (special && ((n <=? 31)%nat || (n =? 127)%nat || Ascii.eqb c "%"%char)).

Definition hostParser (special : bool) (h : list ascii) : bool :=
  match h with
  | "["%char :: r =>
      match rev r with
      | "]"%char :: inner =>
          forallb (fun c => Js.isDigit c || oneOf "abcdefABCDEF:." c) inner
      | _ => false
      end
  | _ => forallb (fun c => negb (isForbiddenHostChar special c)) h
  end.

Fixpoint decimal (acc : N) (l : list ascii) : N :=
  match l with
  | [] => acc
  | c :: r => decimal (acc * 10 + (N_of_ascii c - 48))%N r
  end.

(** Port state: digits only, at most 65535. *)
Definition portState (p : list ascii) : bool :=
  forallb Js.isDigit p && (decimal 0 p <=? 65535)%N.

(** Authority, host and port states on what follows the slashes. *)
Definition authorityState (special : bool) (scheme : string) (input : list ascii)
  : option t :=
  let '(authority, _) := break (endsAuthority special) input in
  let hostport :=
    match afterLast "@"%char authority with
    | Some h => h
    | None => authority
    end in
  match hostState false [] hostport with
  | (h, p) =>
      let noHost := match h with [] => true | _ => false end in
      if noHost && (special || bool_decide (is_Some p)
                    || bool_decide (is_Some (afterLast "@"%char authority)))
      then None
      else if negb (hostParser special h) then None
      else if negb (portState (default [] p)) then None
      else Some {| protocol := scheme +:+ ":";
                   host := string_of_list_ascii h;
                   port := string_of_list_ascii (default [] p) |}
  end.

(** File host state: an empty host is allowed. *)
Definition fileState (input : list ascii) : option t :=
  match input with
  | a :: b :: r =>
      if isSlash true a && isSlash true b then
        let '(h, _) := break (endsAuthority true) r in
        if hostParser true h
        then Some {| protocol := "file:"; host := string_of_list_ascii h;
                     port := EmptyString |}
        else None
      else Some {| protocol := "file:"; host := EmptyString; port := EmptyString |}
  | _ => Some {| protocol := "file:"; host := EmptyString; port := EmptyString |}
  end.

Definition parse (input : string) : option t :=
  match schemeStartState (preprocess input) with
  | None => None
  | Some (s, r) =>
      let scheme := string_of_list_ascii s in
      if String.eqb scheme "file" then fileState r
      else if isSpecial scheme then
        authorityState true scheme (dropWhile (isSlash true) r)
      else
        match r with
        | "/"%char :: "/"%char :: r' => authorityState false scheme r'
        | _ => Some {| protocol := scheme +:+ ":"; host := EmptyString;
                       port := EmptyString |}
        end
  end.

(** [new URL(address)]: the object, or the [TypeError] thrown. *)
Definition construct (address : string) : Js.Error + t :=
  match parse address with
  | Some u => inr u
  | None => inl (Js.mkError (Some "ERR_INVALID_URL") ("Invalid URL: " +:+ address))
  end.

End Url.

(** ** The Express application *)

(** A layer of the application, in registration order.  A route layer
    is the closure over [environment] and [route] that [setRoutes]
    registers, with the matcher compiled from its path. *)
Inductive Layer :=
| LMiddleware (f : Request.t -> Request.t)
| LLogRequests (environment : EnvironmentType.t)
| LEnvironmentLatency (environmentUUID : string)
| LRoute (method : Method) (path : string) (matcher : string -> bool)
         (environment : EnvironmentType.t) (route : RouteType.t)
| LCors (environment : EnvironmentType.t)
| LProxy (target : string).

(** The listener that [start] creates. *)
Record ServerInstance := {
  app : list Layer;
  secure : bool;
  listeningPort : Z
}.

(** [environmentsStore.update(action)] *)
Inductive StoreAction :=
| UPDATE_ENVIRONMENT_STATUS (running needRestart : bool).

(** A route registered for [routeMethod] answers a request of that
    method; Express also hands HEAD requests to GET routes. *)
Definition handlesMethod (routeMethod requestMethod : Method) : bool :=
  bool_decide (routeMethod = requestMethod)
  || (bool_decide (requestMethod = HEAD) && bool_decide (routeMethod = GET)).

(** The response Express hands to the first layer. *)
Definition initialResponse : Response.t :=
  {| Response.statusCode := 200;
     Response.headers := {[ "x-powered-by" := "Express" ]};
     Response.body := None;
     Response.headersSent := false |}.

(** [list.forEach(f)]: an exception leaves the loop. *)
Fixpoint forEach {A} (l : list A) (f : A -> M unit) : M unit :=
  match l with
  | [] => mret tt
  | x :: r => f x ;; forEach r f
  end.

(** ** ServerService *)

Section ServerService.
Context `{Settings}.

(** The service object with the collaborators it writes to:
    [environmentsLogs] and [instances] are its own properties;
    [shownAlerts] are the calls of [alertService.showAlert],
    [storeUpdates] the calls of [environmentsStore.update],
    [storeEnvironments] what [getEnvironmentByUUID] answers, and
    [killed] the listeners whose [kill] has completed. *)
Record Service := {
  environmentsLogs : gmap string (list LogEntry);
  instances : gmap string ServerInstance;
  shownAlerts : list Alert;
  storeUpdates : list StoreAction;
  storeEnvironments : gmap string EnvironmentType.t;
  killed : list ServerInstance
}.

(** The entry [setHeaders] writes: key and value are both truthy and
    the key passes the validity test. *)
Definition headerIsApplied (header : HeaderType.t) : bool :=
  match HeaderType.key header, HeaderType.value header with
  | Some key, Some value =>
      Js.truthy key && Js.truthy value && negb (testHeaderValidity key)
  | _, _ => false
  end.

(** [setHeaders(headers, req, res)] *)
Definition setHeaders (headers : list HeaderType.t) (req : Request.t) : M unit :=
  forEach headers (fun header =>
    match HeaderType.key header, HeaderType.value header with
    | Some key, Some value =>
        if Js.truthy key && Js.truthy value && negb (testHeaderValidity key)
        then rendered ← call (DummyJSONParser value req); res_set key rendered
        else mret tt
    | _, _ => mret tt
    end).

(** [sendError(res, errorMessage, showAlert = true)] *)
Definition sendError (errorMessage : string) (withAlert : bool) : M unit :=
  when withAlert (showAlert "error" errorMessage) ;;
  res_set "Content-Type" "text/plain" ;;
  res_send (BString errorMessage).

(** [mimeTypesWithTemplating.indexOf(fileMimeType) > -1] *)
Definition hasTemplating (fileMimeType : option string) : bool :=
  match fileMimeType with
  | Some m => existsb (String.eqb m) mimeTypesWithTemplating
  | None => false
  end.

(** The [catch] block of the file branch.  [filePath] is the local
    variable of the handler, still undefined when the path template
    itself failed to render. *)
Definition fileCatch (filePath : option string) (error : Js.Error) : M unit :=
  (if bool_decide (Js.code error = Some "ENOENT") then
     sendError (FILE_NOT_EXISTS Errors +:+ default "undefined" filePath) false
   else if Js.includes "Parse error" (Js.message error) then
     sendError (TEMPLATE_PARSE Errors) false
   else mret tt) ;;
  res_end None.

(** The [try] block of the file branch once [filePath] is assigned. *)
Definition serveFile (routeContentType : string) (route : RouteType.t)
    (req : Request.t) (filePath : string) : M unit :=
  let fileMimeType := mimeTypes_lookup (RouteType.filePath route) in
  when (negb (Js.truthy routeContentType))
       (res_set "Content-Type" (Js.stringOrFalse fileMimeType)) ;;
  fileContent ← call (readFileSync filePath);
  content ← (if hasTemplating fileMimeType
             then rendered ← call (DummyJSONParser fileContent req);
                  mret (BString rendered)
             else mret (BBuffer fileContent));
  when (negb (RouteType.sendFileAsBody route))
       (res_set "Content-Disposition"
          ("attachment; filename=" +:+ Js.dquote +:+ path_basename filePath
           +:+ Js.dquote)) ;;
  res_send content.

(** The [catch] block of the JSON branch. *)
Definition jsonCatch (error : Js.Error) : M unit :=
  (if Js.includes "Unexpected token" (Js.message error)
      || Js.includes "Parse error" (Js.message error) then
     sendError (JSON_PARSE Errors) true
   else if Js.includes "Missing helper" (Js.message error) then
     sendError (MISSING_HELPER Errors
                +:+ nth 1 (Js.split (ascii_of_nat 34) (Js.message error))
                       "undefined")
               true
   else mret tt) ;;
  res_end None.

(** The [catch] block of the plain body branch. *)
Definition bodyCatch (error : Js.Error) : M unit :=
  (if Js.includes "invalid media type" (Js.message error) then
     sendError (INVALID_CONTENT_TYPE Errors) true
   else mret tt) ;;
  res_end None.

(** The body resolution of the handler: the file, the JSON body or
    the plain body. *)
Definition resolveBody (routeContentType : string) (route : RouteType.t)
    (req : Request.t) : M unit :=
  if Js.truthy (RouteType.filePath route) then
    match DummyJSONParser (RouteType.filePath route) req with
    | inl error => fileCatch None error
    | inr filePath =>
        tryCatch (serveFile routeContentType route req filePath)
                 (fileCatch (Some filePath))
    end
  else if String.eqb routeContentType "application/json" then
    tryCatch (rendered ← call (DummyJSONParser (RouteType.body route) req);
              value ← call (JSON_parse rendered);
              res_json value)
             jsonCatch
  else
    tryCatch (rendered ← call (DummyJSONParser (RouteType.body route) req);
              res_send (BString rendered))
             bodyCatch.

(** The handler [setRoutes] registers for [route]; it runs once the
    route latency has elapsed. *)
Definition routeHandler (environment : EnvironmentType.t) (route : RouteType.t)
    (req : Request.t) : M unit :=
  let routeContentType := getRouteContentType environment route in
  res_status (RouteType.statusCode route) ;;
  setHeaders (EnvironmentType.headers environment) req ;;
  setHeaders (RouteType.headers route) req ;;
  resolveBody routeContentType route req.

(** The path [setRoutes] registers a route at. *)
Definition routePath (environment : EnvironmentType.t) (route : RouteType.t) : string :=
  "/" +:+ (if Js.truthy (EnvironmentType.endpointPrefix environment)
           then EnvironmentType.endpointPrefix environment +:+ "/"
           else EmptyString)
      +:+ Js.replaceSpaces (RouteType.endpoint route).

(** One turn of the [forEach] of [setRoutes], on the application and
    the alert sink. *)
Definition setRoute (environment : EnvironmentType.t)
    (acc : list Layer * list Alert) (route : RouteType.t) : list Layer * list Alert :=
  let '(server, shown) := acc in
  match RouteType.duplicates route with
  | [] =>
      match pathToRegexp (routePath environment route) with
      | inr matcher =>
          (server ++ [LRoute (RouteType.method route) (routePath environment route)
                        matcher environment route], shown)
      | inl error =>
          if Js.includes "Invalid regular expression" (Js.message error)
          then (server, shown ++ [("error", INVALID_ROUTE_REGEX Errors
                                             +:+ RouteType.endpoint route)])
          else (server, shown)
      end
  | _ :: _ => (server, shown)
  end.

(** [setRoutes(server, environment)] *)
Definition setRoutes (environment : EnvironmentType.t)
    (acc : list Layer * list Alert) : list Layer * list Alert :=
  fold_left (setRoute environment) (EnvironmentType.routes environment) acc.

(** [setCors(server, environment)] *)
Definition setCors (server : list Layer) (environment : EnvironmentType.t) : list Layer :=
  if EnvironmentType.cors environment then server ++ [LCors environment] else server.

(** The preflight handler; [res.send(200)] answers with the status
    text. *)
Definition corsHandler (environmentSelected : EnvironmentType.t) (req : Request.t)
  : M unit :=
  setHeaders CORSHeaders req ;;
  setHeaders (EnvironmentType.headers environmentSelected) req ;;
  r ← getRes;
  when (negb (Js.truthyOpt (Response.get "Content-Type" r)))
       (res_set "Content-Type" "text/plain") ;;
  res_status 200 ;;
  res_send (BString "OK").

(** [isValidURL(address)] *)
Definition isValidURL (address : string) : bool :=
  match Url.construct address with
  | inr myURL => true
  | inl e => false
  end.

(** [enableProxy(server, environment)] *)
Definition enableProxy (server : list Layer) (environment : EnvironmentType.t)
  : list Layer :=
  if EnvironmentType.proxyMode environment
     && Js.truthy (EnvironmentType.proxyHost environment)
     && isValidURL (EnvironmentType.proxyHost environment)
  then server ++ [LProxy (EnvironmentType.proxyHost environment)]
  else server.

(** The middleware of [logRequests], on [environmentsLogs]. *)
Definition logRequest (environment : EnvironmentType.t) (req : Request.t)
    (logs : gmap string (list LogEntry)) : gmap string (list LogEntry) :=
  let environmentLogs := default [] (logs !! EnvironmentType.uuid environment) in
  let environmentLogs :=
    if (maxLogsPerEnvironment <=? length environmentLogs)%nat
    then removelast environmentLogs
    else environmentLogs in
  <[EnvironmentType.uuid environment := formatRequestLog req :: environmentLogs]> logs.

(** [logRequests(server, environment)] *)
Definition logRequests (server : list Layer) (environment : EnvironmentType.t)
  : list Layer :=
  server ++ [LLogRequests environment].

(** [setEnvironmentLatency(server, environmentUUID)] *)
Definition setEnvironmentLatency (server : list Layer) (environmentUUID : string)
  : list Layer :=
  server ++ [LEnvironmentLatency environmentUUID].

(** What became of a request. *)
Inductive Outcome :=
| ByRoute (route : RouteType.t) (result : HState * (Js.Error + unit))
| ByCors (result : HState * (Js.Error + unit))
| ByProxy (response : Response.t)
| Failed (error : Js.Error)
| Unhandled.

Definition withLogs (svc : Service) (logs : gmap string (list LogEntry)) : Service :=
  {| environmentsLogs := logs; instances := instances svc;
     shownAlerts := shownAlerts svc; storeUpdates := storeUpdates svc;
     storeEnvironments := storeEnvironments svc; killed := killed svc |}.

Definition withAlerts (svc : Service) (shown : list Alert) : Service :=
  {| environmentsLogs := environmentsLogs svc; instances := instances svc;
     shownAlerts := shown; storeUpdates := storeUpdates svc;
     storeEnvironments := storeEnvironments svc; killed := killed svc |}.

(** A request through the layers of an application: a middleware
    passes the request on, the first route that matches answers, then
    the preflight handler, then the proxy. *)
Fixpoint handle (server : list Layer) (req : Request.t) (svc : Service)
  : Service * Outcome :=
  match server with
  | [] => (svc, Unhandled)
  | LMiddleware f :: rest => handle rest (f req) svc
  | LLogRequests environment :: rest =>
      handle rest req (withLogs svc (logRequest environment req (environmentsLogs svc)))
  | LEnvironmentLatency environmentUUID :: rest =>
      match storeEnvironments svc !! environmentUUID with
      | Some environmentSelected => handle rest req svc
      | None => (svc, Failed (Js.mkError None
                   "Cannot read property 'latency' of undefined"))
      end
  | LRoute method path matcher environment route :: rest =>
      if handlesMethod method (Request.method req) && matcher (Request.path req)
      then
        let result := routeHandler environment route req
                        {| res := initialResponse; alerts := shownAlerts svc |} in
        (withAlerts svc (alerts (fst result)), ByRoute route result)
      else handle rest req svc
  | LCors environment :: rest =>
      if bool_decide (Request.method req = OPTIONS) then
        match storeEnvironments svc !! EnvironmentType.uuid environment with
        | Some environmentSelected =>
            let result := corsHandler environmentSelected req
                            {| res := initialResponse; alerts := shownAlerts svc |} in
            (withAlerts svc (alerts (fst result)), ByCors result)
        | None => (svc, Failed (Js.mkError None
                     "Cannot read property 'headers' of undefined"))
        end
      else handle rest req svc
  | LProxy target :: rest =>
      (svc, ByProxy (proxyForward target
                       {| Request.method := Request.method req;
                          Request.path := Request.path req;
                          Request.headers := Request.headers req;
                          Request.body := Request.body req;
                          Request.proxied := true |}))
  end.

(** The application [start] builds, with the alerts raised on the way. *)
Definition buildApp (environment : EnvironmentType.t) (shown : list Alert)
  : list Layer * list Alert :=
  let server := map LMiddleware ExpressMiddlewares in
  let server := logRequests server environment in
  let server := setEnvironmentLatency server (EnvironmentType.uuid environment) in
  let '(server, shown) := setRoutes environment (server, shown) in
  let server := setCors server environment in
  (enableProxy server environment, shown).

(** How [listen] ended: the callback ran, or the error event fired. *)
Inductive ListenOutcome :=
| Listening
| ListenError (error : Js.Error).

(** [start(environment)] *)
Definition start (outcome : ListenOutcome) (environment : EnvironmentType.t)
    (svc : Service) : Service :=
  let '(server, shown) := buildApp environment (shownAlerts svc) in
  let serverInstance :=
    {| app := server; secure := EnvironmentType.https environment;
       listeningPort := EnvironmentType.port environment |} in
  match outcome with
  | Listening =>
      {| environmentsLogs := environmentsLogs svc;
         instances := <[EnvironmentType.uuid environment := serverInstance]> (instances svc);
         shownAlerts := shown;
         storeUpdates := storeUpdates svc ++ [UPDATE_ENVIRONMENT_STATUS true false];
         storeEnvironments := storeEnvironments svc;
         killed := killed svc |}
  | ListenError error =>
      withAlerts svc
        (shown ++ [("error",
           if bool_decide (Js.code error = Some "EADDRINUSE") then PORT_ALREADY_USED Errors
           else if bool_decide (Js.code error = Some "EACCES") then PORT_INVALID Errors
           else Js.message error)])
  end.

(** [stop(environmentUUID)]; the callback of [kill] runs once the
    listener and its connections are closed. *)
Definition stop (environmentUUID : string) (svc : Service) : Service :=
  match instances svc !! environmentUUID with
  | Some instance =>
      {| environmentsLogs := environmentsLogs svc;
         instances := delete environmentUUID (instances svc);
         shownAlerts := shownAlerts svc;
         storeUpdates := storeUpdates svc ++ [UPDATE_ENVIRONMENT_STATUS false false];
         storeEnvironments := storeEnvironments svc;
         killed := killed svc ++ [instance] |}
  | None => svc
  end.

(** [clearEnvironmentLogs(environmentUuid)] *)
Definition clearEnvironmentLogs (environmentUuid : string) (svc : Service) : Service :=
  withLogs svc (<[environmentUuid := []]> (environmentsLogs svc)).

(** [deleteEnvironmentLogs(environmentUUID)] *)
Definition deleteEnvironmentLogs (environmentUUID : string) (svc : Service) : Service :=
  withLogs svc (delete environmentUUID (environmentsLogs svc)).

(** The subscription of the constructor to [environmentDeleted]. *)
Definition environmentDeleted (environmentUUID : string) (svc : Service) : Service :=
  deleteEnvironmentLogs environmentUUID (stop environmentUUID svc).

(** A request received by the running instance of an environment. *)
Definition receive (environmentUUID : string) (req : Request.t) (svc : Service)
  : option (Service * Outcome) :=
  match instances svc !! environmentUUID with
  | Some instance => Some (handle (app instance) req svc)
  | None => None
  end.

(** The requests of a list, one after the other, through the logging
    middleware of [environment]. *)
Definition logAll (environment : EnvironmentType.t) (reqs : list Request.t)
    (logs : gmap string (list LogEntry)) : gmap string (list LogEntry) :=
  fold_left (fun l req => logRequest environment req l) reqs logs.

End ServerService.

(** ** A sample deployment

    A small platform and configuration on which the statements below
    are evaluated: a renderer for templates without expressions, a
    file system of two files, a router for literal paths. *)
Module Sample.

Definition extension (p : string) : option string :=
  string_of_list_ascii <$> Url.afterLast "."%char (list_ascii_of_string p).

Definition files : list (string * string) :=
  [("data/report.txt", "quarterly report"); ("data/logo.png", "PNG")].

Definition lookupFile (p : string) : Js.Error + string :=
  match List.find (fun f => String.eqb (fst f) p) files with
  | Some f => inr (snd f)
  | None => inl (Js.mkError (Some "ENOENT")
                   ("ENOENT: no such file or directory, open '" +:+ p +:+ "'"))
  end.

Definition isScalar (s : string) : bool :=
  existsb (String.eqb s) ["true"; "false"; "null"]
  || forallb Js.isDigit (list_ascii_of_string s).

Definition addCharset (v : string) : string :=
  if Js.includes "charset" v then v
  else if String.prefix "text/" v || String.eqb v "application/json"
       then v +:+ "; charset=utf-8"
       else v.

#[local] Instance platform : Platform := {|
  JSONValue := string;
  DummyJSONParser := fun template _ =>
    if Js.includes "{{" template
    then inl (Js.mkError None "Parse error on line 1")
    else inr template;
  JSON_parse := fun s =>
    match s with
    | EmptyString => inl (Js.mkError None "Unexpected end of JSON input")
    | String c _ =>
        if isScalar s then inr s
        else inl (Js.mkError None ("Unexpected token " +:+ String c EmptyString
                                   +:+ " in JSON at position 0"))
    end;
  JSON_stringify := fun v => v;
  readFileSync := lookupFile;
  mimeTypes_lookup := fun p =>
    match extension p with
    | Some "txt" => Some "text/plain"
    | Some "json" => Some "application/json"
    | Some "png" => Some "image/png"
    | _ => None
    end;
  path_basename := fun p =>
    match Url.afterLast "/"%char (list_ascii_of_string p) with
    | Some b => string_of_list_ascii b
    | None => p
    end;
  pathToRegexp := fun p =>
    if Js.includes "(" p
    then inl (Js.mkError None ("Invalid regular expression: " +:+ p))
    else inr (String.eqb p);
  withDefaultCharset := addCharset;
  setCharset := fun t => Some (if Js.includes "charset" t then t
                               else t +:+ "; charset=utf-8");
  proxyForward := fun _ _ => initialResponse
|}.

Definition contentTypeOf (headers : list HeaderType.t) : option string :=
  match List.find (fun h => bool_decide (HeaderType.key h = Some "Content-Type")
                            && Js.truthyOpt (HeaderType.value h)) headers with
  | Some h => HeaderType.value h
  | None => None
  end.

#[local] Instance settings : Settings := {|
  LogEntry := Request.t;
  maxLogsPerEnvironment := 3;
  mimeTypesWithTemplating :=
    ["application/json"; "text/html"; "text/css"; "text/csv";
     "application/javascript"; "text/plain"; "application/xml"];
  CORSHeaders :=
    [HeaderType.mk (Some "Access-Control-Allow-Origin") (Some "*");
     HeaderType.mk (Some "Access-Control-Allow-Methods")
       (Some "GET,POST,PUT,PATCH,DELETE,HEAD,OPTIONS")];
  Errors := {|
    PORT_ALREADY_USED := "Port is already in use";
    PORT_INVALID := "Port is invalid";
    INVALID_ROUTE_REGEX := "Invalid regular expression in route: ";
    FILE_NOT_EXISTS := "File does not exist: ";
    TEMPLATE_PARSE := "Error while parsing the template";
    JSON_PARSE := "Error while parsing the JSON body";
    MISSING_HELPER := "Missing helper: ";
    INVALID_CONTENT_TYPE := "Invalid Content-Type" |};
  ExpressMiddlewares := [];
  getRouteContentType := fun environment route =>
    default EmptyString
      (match contentTypeOf (RouteType.headers route) with
       | Some v => Some v
       | None => contentTypeOf (EnvironmentType.headers environment)
       end);
  formatRequestLog := fun req => req
|}.

Definition header (key value : string) : HeaderType.t :=
  HeaderType.mk (Some key) (Some value).

Definition route (method : Method) (endpoint body : string)
    (headers : list HeaderType.t) (filePath : string) (duplicates : list nat)
  : RouteType.t :=
  {| RouteType.method := method; RouteType.endpoint := endpoint;
     RouteType.body := body; RouteType.latency := 0;
     RouteType.statusCode := 200; RouteType.headers := headers;
     RouteType.filePath := filePath; RouteType.sendFileAsBody := false;
     RouteType.duplicates := duplicates |}.

Definition environment (endpointPrefix : string) (routes : list RouteType.t)
    (headers : list HeaderType.t) (proxyHost : string) : EnvironmentType.t :=
  {| EnvironmentType.uuid := "env-1"; EnvironmentType.running := false;
     EnvironmentType.name := "sample"; EnvironmentType.port := 3000;
     EnvironmentType.endpointPrefix := endpointPrefix;
     EnvironmentType.latency := 0; EnvironmentType.routes := routes;
     EnvironmentType.startedAt := None; EnvironmentType.modifiedAt := None;
     EnvironmentType.needRestart := None;
     EnvironmentType.proxyMode := Js.truthy proxyHost;
     EnvironmentType.proxyHost := proxyHost;
     EnvironmentType.https := false; EnvironmentType.cors := true;
     EnvironmentType.headers := headers; EnvironmentType.duplicates := [] |}.

Definition request (method : Method) (path : string) : Request.t :=
  {| Request.method := method; Request.path := path; Request.headers := [];
     Request.body := EmptyString; Request.proxied := false |}.

Definition start0 : HState := {| res := initialResponse; alerts := [] |}.

(** Three routes, the last two declared at the same method and path. *)
Definition routeUsers : RouteType.t := route GET "users" "[]" [] EmptyString [].
Definition routeItemsA : RouteType.t := route GET "items" "a" [] EmptyString [2].
Definition routeItemsB : RouteType.t := route GET "items" "b" [] EmptyString [1].
Definition envDuplicates : EnvironmentType.t :=
  environment EmptyString [routeUsers; routeItemsA; routeItemsB] [] EmptyString.

(** The same header in the environment and in a route. *)
Definition envOrigin : EnvironmentType.t :=
  environment EmptyString [] [header "X-Origin" "environment"] EmptyString.
Definition routeOrigin : RouteType.t :=
  route GET "origin" "ok" [header "X-Origin" "route"] EmptyString [].

Definition routeReport : RouteType.t :=
  route GET "report" EmptyString [header "Content-Disposition" "inline"]
        "data/report.txt" [].
Definition routeLogo : RouteType.t :=
  route GET "logo" EmptyString [] "data/logo.png" [].

(** A JSON route with an empty body. *)
Definition routeEmptyJson : RouteType.t :=
  route GET "empty" EmptyString [header "Content-Type" "application/json"]
        EmptyString [].

(** An endpoint with a space, under a prefix without and with one. *)
Definition routeAllUsers : RouteType.t :=
  route GET "all users" "[]" [] EmptyString [].
Definition envApi : EnvironmentType.t :=
  environment "api" [routeAllUsers] [] EmptyString.
Definition envSpaced : EnvironmentType.t :=
  environment "my api" [routeAllUsers] [] EmptyString.

(** The service with the store answering for an environment. *)
Definition serviceWith (e : EnvironmentType.t) : Service :=
  {| environmentsLogs := ∅; instances := ∅; shownAlerts := [];
     storeUpdates := [];
     storeEnvironments := {[ EnvironmentType.uuid e := e ]}; killed := [] |}.

End Sample.

(** ** A second deployment

    The platform of the sample with a file system that holds a
    directory, a renderer that knows of helpers, and a content type
    parser that refuses a type without a slash; the configuration is
    that of the sample. *)
Module Strict.

Definition platform : Platform := {|
  JSONValue := string;
  DummyJSONParser := fun template req =>
    if Js.includes "{{helper" template
    then inl (Js.mkError None
                ("Missing helper: " +:+ Js.dquote +:+ "helper" +:+ Js.dquote))
    else @DummyJSONParser Sample.platform template req;
  JSON_parse := @JSON_parse Sample.platform;
  JSON_stringify := @JSON_stringify Sample.platform;
  readFileSync := fun p =>
    if String.eqb p "data"
    then inl (Js.mkError (Some "EISDIR")
                "EISDIR: illegal operation on a directory, read")
    else Sample.lookupFile p;
  mimeTypes_lookup := @mimeTypes_lookup Sample.platform;
  path_basename := @path_basename Sample.platform;
  pathToRegexp := @pathToRegexp Sample.platform;
  withDefaultCharset := Sample.addCharset;
  setCharset := fun t =>
    if Js.includes "/" t then @setCharset Sample.platform t else None;
  proxyForward := @proxyForward Sample.platform
|}.

Definition settings : @Settings platform := {|
  LogEntry := Request.t;
  maxLogsPerEnvironment := @maxLogsPerEnvironment _ Sample.settings;
  mimeTypesWithTemplating := @mimeTypesWithTemplating _ Sample.settings;
  CORSHeaders := @CORSHeaders _ Sample.settings;
  Errors := @Errors _ Sample.settings;
  ExpressMiddlewares := [];
  getRouteContentType := @getRouteContentType _ Sample.settings;
  formatRequestLog := fun req => req
|}.

(** A route on a directory, and a route with a content type that is
    no media type. *)
Definition routeFolder : RouteType.t :=
  Sample.route GET "folder" EmptyString [] "data" [].
Definition routeGarbage : RouteType.t :=
  Sample.route GET "garbage" "hello" [Sample.header "Content-Type" "garbage"]
    EmptyString [].

End Strict.

(** ** A deployment with request data in templates

    The platform of the sample with a renderer that puts the body of
    the request in the place of the first expression that asks for it,
    and one more file, whose content holds such an expression. *)
Module Templated.

Definition expression : string := "{{body}}".

Definition render (template : string) (req : Request.t) : Js.Error + string :=
  match String.index 0 expression template with
  | Some n =>
      inr (String.substring 0 n template +:+ Request.body req
           +:+ String.substring (n + String.length expression)
                 (String.length template - (n + String.length expression))
                 template)
  | None => @DummyJSONParser Sample.platform template req
  end.

Definition files : list (string * string) :=
  Sample.files ++ [("data/greeting.txt", "Hello {{body}}")].

Definition lookupFile (p : string) : Js.Error + string :=
  match List.find (fun f => String.eqb (fst f) p) files with
  | Some f => inr (snd f)
  | None => inl (Js.mkError (Some "ENOENT")
                   ("ENOENT: no such file or directory, open '" +:+ p +:+ "'"))
  end.

Definition platform : Platform := {|
  JSONValue := string;
  DummyJSONParser := render;
  JSON_parse := @JSON_parse Sample.platform;
  JSON_stringify := @JSON_stringify Sample.platform;
  readFileSync := lookupFile;
  mimeTypes_lookup := @mimeTypes_lookup Sample.platform;
  path_basename := @path_basename Sample.platform;
  pathToRegexp := @pathToRegexp Sample.platform;
  withDefaultCharset := Sample.addCharset;
  setCharset := @setCharset Sample.platform;
  proxyForward := @proxyForward Sample.platform
|}.

Definition settings : @Settings platform := {|
  LogEntry := Request.t;
  maxLogsPerEnvironment := @maxLogsPerEnvironment _ Sample.settings;
  mimeTypesWithTemplating := @mimeTypesWithTemplating _ Sample.settings;
  CORSHeaders := @CORSHeaders _ Sample.settings;
  Errors := @Errors _ Sample.settings;
  ExpressMiddlewares := [];
  getRouteContentType := @getRouteContentType _ Sample.settings;
  formatRequestLog := fun req => req
|}.


End Templated.

(** * Properties *)

(** ** Header names *)

Lemma isTokenChar_toLowerChar (c : ascii) :
  isTokenChar (Js.toLowerChar c) = isTokenChar c.
Proof. destruct c as [[] [] [] [] [] [] [] []]; reflexivity. Qed.

Lemma hasNonTokenChar_toLowerCase (s : string) :
  hasNonTokenChar (Js.toLowerCase s) = hasNonTokenChar s.
Proof.
  unfold hasNonTokenChar.
  induction s as [|c s IH]; simpl; [reflexivity|].
  rewrite isTokenChar_toLowerChar. f_equal. exact IH.
Qed.

Lemma truthy_toLowerCase (s : string) :
  Js.truthy (Js.toLowerCase s) = Js.truthy s.
Proof. destruct s; reflexivity. Qed.

Lemma validHeaderName_toLowerCase (s : string) :
  validHeaderName (Js.toLowerCase s) = validHeaderName s.
Proof.
  unfold validHeaderName.
  rewrite truthy_toLowerCase, hasNonTokenChar_toLowerCase. reflexivity.
Qed.

(** A string with a character outside the token class is not empty. *)
Lemma hasNonTokenChar_truthy (s : string) :
  hasNonTokenChar s = true -> Js.truthy s = true.
Proof. destruct s; [discriminate | reflexivity]. Qed.

Lemma testHeaderValidity_true (s : string) :
  testHeaderValidity s = true <-> hasNonTokenChar s = true.
Proof.
  unfold testHeaderValidity. split.
  - destruct (Js.truthy s), (hasNonTokenChar s); simpl; congruence.
  - intros E. rewrite (hasNonTokenChar_truthy _ E), E. reflexivity.
Qed.

Lemma validHeaderName_token (k : string) :
  validHeaderName k = true -> hasNonTokenChar k = false.
Proof.
  unfold validHeaderName. destruct (Js.truthy k), (hasNonTokenChar k); simpl; congruence.
Qed.

(** ** The handler monad *)

Lemma bind_run {A B} (m : M A) (f : A -> M B) (s : HState) :
  (m ≫= f) s = match m s with
               | (s', inl e) => (s', inl e)
               | (s', inr a) => f a s'
               end.
Proof. reflexivity. Qed.

Lemma forEach_app {A} (l1 l2 : list A) (f : A -> M unit) (s : HState) :
  forEach (l1 ++ l2) f s = (forEach l1 f ;; forEach l2 f) s.
Proof.
  revert s. induction l1 as [|x l1 IH]; intros s; simpl.
  - reflexivity.
  - rewrite !bind_run. destruct (f x s) as [s' [e|[]]]; [reflexivity|].
    rewrite IH. reflexivity.
Qed.

(** *** Frames on the response headers

    [Q] relates the headers before and after a computation; a
    computation respects [Q] when every run is related, whether it
    returns or throws. *)
Section Frames.
Context `{Settings}.
Variable Q : gmap string string -> gmap string string -> Prop.
Hypothesis Q_refl : forall h, Q h h.
Hypothesis Q_trans : forall h1 h2 h3, Q h1 h2 -> Q h2 h3 -> Q h1 h3.

Definition respects {A} (m : M A) : Prop :=
  forall s, Q (Response.headers (res s)) (Response.headers (res (fst (m s)))).

(** [name] may be written: storing any value under it is within [Q]. *)
Definition writable (name : string) : Prop :=
  forall h v, validHeaderName name = true -> Q h (<[Js.toLowerCase name := v]> h).

Lemma respects_ret {A} (a : A) : respects (mret a).
Proof. intros s. apply Q_refl. Qed.

Lemma respects_throw {A} (e : Js.Error) : respects (@throw A e).
Proof. intros s. apply Q_refl. Qed.

Lemma respects_call {A} (r : Js.Error + A) : respects (call r).
Proof. intros s. apply Q_refl. Qed.

Lemma respects_bind {A B} (m : M A) (f : A -> M B) :
  respects m -> (forall a, respects (f a)) -> respects (m ≫= f).
Proof.
  intros Hm Hf s. rewrite bind_run. specialize (Hm s).
  destruct (m s) as [s' [e|a]]; simpl in *; [exact Hm|].
  eapply Q_trans; [exact Hm | apply Hf].
Qed.

Lemma respects_tryCatch {A} (m : M A) (h : Js.Error -> M A) :
  respects m -> (forall e, respects (h e)) -> respects (tryCatch m h).
Proof.
  intros Hm Hh s. unfold tryCatch. specialize (Hm s).
  destruct (m s) as [s' [e|a]]; simpl in *; [|exact Hm].
  eapply Q_trans; [exact Hm | apply Hh].
Qed.

Lemma respects_when (b : bool) (m : M unit) : respects m -> respects (when b m).
Proof. intros Hm. destruct b; [exact Hm | apply respects_ret]. Qed.

Lemma respects_forEach {A} (l : list A) (f : A -> M unit) :
  (forall x, In x l -> respects (f x)) -> respects (forEach l f).
Proof.
  induction l as [|x l IH]; intros Hf; simpl.
  - apply respects_ret.
  - apply respects_bind; [apply Hf; left; reflexivity|].
    intros _. apply IH. intros y Hy. apply Hf. right. exact Hy.
Qed.

Lemma respects_getRes {B} (f : Response.t -> M B) :
  (forall r, respects (f r)) -> respects (getRes ≫= f).
Proof. intros Hf s. rewrite bind_run. simpl. apply Hf. Qed.

Lemma respects_showAlert (type message : string) : respects (showAlert type message).
Proof. intros s. apply Q_refl. Qed.

Lemma respects_res_status (code : Z) : respects (res_status code).
Proof. intros s. apply Q_refl. Qed.

Lemma respects_res_end (chunk : option Body) : respects (res_end chunk).
Proof.
  intros s. unfold res_end. rewrite bind_run. simpl.
  destruct (Response.headersSent (res s)); apply Q_refl.
Qed.

Lemma respects_setHeader (name value : string) :
  writable name -> respects (setHeader name value).
Proof.
  intros W s. unfold setHeader. rewrite bind_run. simpl.
  destruct (Response.headersSent (res s)); [apply Q_refl|].
  destruct (validHeaderName name) eqn:V; simpl; [|apply Q_refl].
  destruct (validHeaderValue value); simpl; [|apply Q_refl].
  apply W. exact V.
Qed.

Lemma respects_res_set (field value : string) :
  writable field -> respects (res_set field value).
Proof.
  intros W. unfold res_set.
  destruct (String.eqb _ _); apply respects_setHeader; exact W.
Qed.

Lemma respects_res_send (chunk : Body) :
  writable "Content-Type" -> respects (res_send chunk).
Proof.
  intros W. unfold res_send. apply respects_getRes. intros r.
  apply respects_bind; [|intros _; apply respects_res_end].
  destruct chunk.
  - apply respects_bind.
    + apply respects_when, respects_res_set, W.
    + intros _. apply respects_getRes. intros r'.
      destruct (Response.get _ r'); [|apply respects_ret].
      destruct (setCharset _); [apply respects_res_set, W | apply respects_throw].
  - apply respects_when, respects_res_set, W.
Qed.

Lemma respects_res_json (v : JSONValue) :
  writable "Content-Type" -> respects (res_json v).
Proof.
  intros W. unfold res_json. apply respects_getRes. intros r.
  apply respects_bind; [apply respects_when, respects_res_set, W|].
  intros _. apply respects_res_send, W.
Qed.

Lemma respects_sendError (errorMessage : string) (withAlert : bool) :
  writable "Content-Type" -> respects (sendError errorMessage withAlert).
Proof.
  intros W. unfold sendError.
  apply respects_bind; [apply respects_when, respects_showAlert|]. intros _.
  apply respects_bind; [apply respects_res_set, W|]. intros _.
  apply respects_res_send, W.
Qed.

Lemma respects_resolveBody (routeContentType : string) (route : RouteType.t)
    (req : Request.t) :
  writable "Content-Type" -> writable "Content-Disposition" ->
  respects (resolveBody routeContentType route req).
Proof.
  intros WT WD. unfold resolveBody.
  assert (HF : forall fp e, respects (fileCatch fp e)).
  { intros fp e. unfold fileCatch.
    apply respects_bind; [|intros _; apply respects_res_end].
    destruct (bool_decide _); [apply respects_sendError, WT|].
    destruct (Js.includes _ _); [apply respects_sendError, WT | apply respects_ret]. }
  destruct (Js.truthy _).
  - destruct (DummyJSONParser _ _) as [e|filePath]; [apply HF|].
    apply respects_tryCatch; [|apply HF].
    unfold serveFile.
    apply respects_bind; [apply respects_when, respects_res_set, WT|]. intros _.
    apply respects_bind; [apply respects_call|]. intros fileContent.
    apply respects_bind.
    { destruct (hasTemplating _); [|apply respects_ret].
      apply respects_bind; [apply respects_call|]. intros ?. apply respects_ret. }
    intros content.
    apply respects_bind; [apply respects_when, respects_res_set, WD|]. intros _.
    apply respects_res_send, WT.
  - destruct (String.eqb _ _).
    + apply respects_tryCatch.
      * apply respects_bind; [apply respects_call|]. intros rendered.
        apply respects_bind; [apply respects_call|]. intros v.
        apply respects_res_json, WT.
      * intros e. unfold jsonCatch.
        apply respects_bind; [|intros _; apply respects_res_end].
        destruct (_ || _); [apply respects_sendError, WT|].
        destruct (Js.includes _ _); [apply respects_sendError, WT | apply respects_ret].
    + apply respects_tryCatch.
      * apply respects_bind; [apply respects_call|]. intros rendered.
        apply respects_res_send, WT.
      * intros e. unfold bodyCatch.
        apply respects_bind; [|intros _; apply respects_res_end].
        destruct (Js.includes _ _); [apply respects_sendError, WT | apply respects_ret].
Qed.

Lemma respects_setHeaders (headers : list HeaderType.t) (req : Request.t) :
  (forall key value, In (HeaderType.mk (Some key) (Some value)) headers ->
     headerIsApplied (HeaderType.mk (Some key) (Some value)) = true -> writable key) ->
  respects (setHeaders headers req).
Proof.
  intros W. unfold setHeaders. apply respects_forEach.
  intros [[key|] [value|]] Hin; simpl; try apply respects_ret.
  destruct (_ && _) eqn:E; [|apply respects_ret].
  apply respects_bind; [apply respects_call|]. intros rendered.
  apply respects_res_set. apply (W key value Hin). simpl. exact E.
Qed.

End Frames.

(** ** Header application *)

(** Only headers with a token name change. *)
Definition tokenFrame (h h' : gmap string string) : Prop :=
  forall j, hasNonTokenChar j = true -> h' !! j = h !! j.



Section HeaderProperties.
Context `{Settings}.

Lemma tokenFrame_refl h : tokenFrame h h.
Proof. intros j _. reflexivity. Qed.

Lemma tokenFrame_trans h1 h2 h3 :
  tokenFrame h1 h2 -> tokenFrame h2 h3 -> tokenFrame h1 h3.
Proof. intros A B j Hj. rewrite (B j Hj). apply A, Hj. Qed.

Lemma tokenFrame_writable (name : string) : writable tokenFrame name.
Proof.
  intros h v V j Hj. apply lookup_insert_ne. intros E. subst j.
  rewrite hasNonTokenChar_toLowerCase in Hj.
  rewrite (validHeaderName_token _ V) in Hj. discriminate.
Qed.




(** The whole handler changes only headers with a token name. *)
Lemma routeHandler_tokenFrame environment route req :
  respects tokenFrame (routeHandler environment route req).
Proof.
  unfold routeHandler.
  repeat (apply respects_bind; [exact tokenFrame_trans | | intros _]);
    [ apply respects_res_status; exact tokenFrame_refl
    | apply respects_setHeaders;
        [exact tokenFrame_refl | exact tokenFrame_trans
        | intros; apply tokenFrame_writable] ..
    | apply respects_resolveBody;
        [exact tokenFrame_refl | exact tokenFrame_trans
        | apply tokenFrame_writable ..] ].
Qed.

Lemma setHeaders_tokenFrame headers req :
  respects tokenFrame (setHeaders headers req).
Proof.
  apply respects_setHeaders;
    [apply tokenFrame_refl | apply tokenFrame_trans | intros; apply tokenFrame_writable].
Qed.

(** An entry that is not applied leaves no trace, wherever it stands. *)
Lemma setHeaders_skip (header : HeaderType.t) (pre post : list HeaderType.t)
    (req : Request.t) (s : HState) :
  headerIsApplied header = false ->
  setHeaders (pre ++ header :: post) req s = setHeaders (pre ++ post) req s.
Proof.
  intros E. unfold setHeaders. rewrite !forEach_app, !bind_run.
  destruct (forEach pre _ s) as [s' [e|[]]]; [reflexivity|].
  change (forEach (header :: post) ?f) with (f header ;; forEach post f).
  rewrite bind_run.
  destruct header as [[key|] [value|]]; try reflexivity.
  unfold headerIsApplied in E. cbn [HeaderType.key HeaderType.value] in *.
  rewrite E. reflexivity.
Qed.

Lemma setHeaders_skip_one (header : HeaderType.t) (req : Request.t) (s : HState) :
  headerIsApplied header = false -> setHeaders [header] req s = (s, inr tt).
Proof. intros E. apply (setHeaders_skip header [] [] req s E). Qed.

Lemma headerIsApplied_iff (header : HeaderType.t) :
  headerIsApplied header = true <->
  exists key value,
    header = HeaderType.mk (Some key) (Some value)
    /\ key <> EmptyString /\ value <> EmptyString /\ hasNonTokenChar key = false.
Proof.
  unfold headerIsApplied.
  destruct header as [[key|] [value|]]; cbn [HeaderType.key HeaderType.value];
    (split; [|intros (k & v & E & Hk & Hv & Ht); inversion E; subst k v]);
    try discriminate.
  - intros E. apply andb_prop in E as [E1 E3]. apply andb_prop in E1 as [E1 E2].
    exists key, value. repeat split.
    + intros ->. discriminate.
    + intros ->. discriminate.
    + apply negb_true_iff in E3. unfold testHeaderValidity in E3.
      rewrite E1 in E3. destruct (hasNonTokenChar key); [discriminate | reflexivity].
  - unfold testHeaderValidity. rewrite Ht, andb_false_r.
    destruct key; [congruence|]. destruct value; [congruence|]. reflexivity.
Qed.







(** ** C10 *)

(** C10. An entry whose value is absent or empty is not applied:
    [setHeaders] passes over it without rendering or writing anything,
    so the response and the outcome are those of the list without the
    entry.  An entry is applied exactly when its key and its value are
    both non-empty and the key is a valid token. *)
Theorem header_without_value_is_skipped (header : HeaderType.t)
    (pre post : list HeaderType.t) (req : Request.t) (s : HState) :
  Js.truthyOpt (HeaderType.value header) = false ->
  headerIsApplied header = false
  /\ setHeaders [header] req s = (s, inr tt)
  /\ setHeaders (pre ++ header :: post) req s = setHeaders (pre ++ post) req s
  /\ (forall other : HeaderType.t,
        headerIsApplied other = true <->
        exists key value,
          other = HeaderType.mk (Some key) (Some value)
          /\ key <> EmptyString /\ value <> EmptyString
          /\ hasNonTokenChar key = false).
Proof.
  intros E.
  assert (Hn : headerIsApplied header = false).
  { unfold headerIsApplied. destruct header as [[key|] [value|]]; try reflexivity.
    cbn [HeaderType.key HeaderType.value] in *. simpl in E.
    rewrite E, andb_false_r. reflexivity. }
  split; [exact Hn|]. split; [apply setHeaders_skip_one, Hn|].
  split; [apply setHeaders_skip, Hn|]. apply headerIsApplied_iff.
Qed.

(** ** C4 *)

(** C4. An entry whose key has a character outside the token class is
    passed over silently, whatever its value (even one the renderer
    would reject): the outcome is that of the list without the entry,
    and a response that did not hold the key before does not hold it
    after [setHeaders], nor after the whole route handler. *)
Theorem invalid_header_key_is_skipped (key : string) (value : option string)
    (pre post : list HeaderType.t) (environment : EnvironmentType.t)
    (route : RouteType.t) (req : Request.t) (s : HState) :
  hasNonTokenChar key = true ->
  setHeaders [HeaderType.mk (Some key) value] req s = (s, inr tt)
  /\ setHeaders (pre ++ HeaderType.mk (Some key) value :: post) req s
     = setHeaders (pre ++ post) req s
  /\ (Response.get key (res s) = None ->
      Response.get key
        (res (fst (setHeaders (pre ++ HeaderType.mk (Some key) value :: post) req s)))
      = None
      /\ Response.get key (res (fst (routeHandler environment route req s))) = None).
Proof.
  intros Hk.
  assert (Hn : headerIsApplied (HeaderType.mk (Some key) value) = false).
  { unfold headerIsApplied. cbn [HeaderType.key HeaderType.value].
    destruct value as [v|]; [|reflexivity].
    rewrite (proj2 (testHeaderValidity_true key) Hk), andb_false_r. reflexivity. }
  split; [apply setHeaders_skip_one, Hn|]. split; [apply setHeaders_skip, Hn|].
  intros Habsent.
  assert (Hl : hasNonTokenChar (Js.toLowerCase key) = true)
    by (rewrite hasNonTokenChar_toLowerCase; exact Hk).
  unfold Response.get in *. split.
  - rewrite (setHeaders_tokenFrame _ req s _ Hl). exact Habsent.
  - rewrite (routeHandler_tokenFrame environment route req s _ Hl). exact Habsent.
Qed.

(** ** C3 *)



End HeaderProperties.

(** ** Body resolution *)

(** *** Invariants, thrown errors and returned values

    [spec Inv E R m]: a run of [m] from a state of [Inv] ends in a
    state of [Inv]; an error it throws is one of [E], a value it
    returns one of [R]. *)
Section Specs.
Variable Inv : HState -> Prop.

Definition spec {A} (E : Js.Error -> Prop) (R : A -> Prop) (m : M A) : Prop :=
  forall s, Inv s ->
    Inv (fst (m s))
    /\ (forall e, snd (m s) = inl e -> E e)
    /\ (forall a, snd (m s) = inr a -> R a).

Definition any {A} (a : A) : Prop := True.

Lemma spec_ret {A} E (R : A -> Prop) (a : A) : R a -> spec E R (mret a).
Proof.
  intros Ha s I. split; [exact I|]. split; [discriminate|].
  intros a' Eq. inversion Eq; subst. exact Ha.
Qed.

Lemma spec_throw {A} (E : Js.Error -> Prop) (R : A -> Prop) (e : Js.Error) :
  E e -> spec E R (@throw A e).
Proof.
  intros He s I. split; [exact I|]. split; [|discriminate].
  intros e' Eq. inversion Eq; subst. exact He.
Qed.

Lemma spec_call {A} (E : Js.Error -> Prop) (R : A -> Prop) (r : Js.Error + A) :
  (forall e, r = inl e -> E e) -> (forall a, r = inr a -> R a) -> spec E R (call r).
Proof. intros He Ha s I. split; [exact I|]. split; [exact He | exact Ha]. Qed.

Lemma spec_bind {A B} E (R : A -> Prop) (R' : B -> Prop) (m : M A) (f : A -> M B) :
  spec E R m -> (forall a, R a -> spec E R' (f a)) -> spec E R' (m ≫= f).
Proof.
  intros Hm Hf s I. rewrite bind_run. destruct (Hm s I) as (I' & He & Ha).
  destruct (m s) as [s' [e|a]]; simpl in *.
  - split; [exact I'|]. split; [|discriminate].
    intros e' Eq. apply He. inversion Eq. reflexivity.
  - apply Hf; [apply Ha; reflexivity | exact I'].
Qed.

Lemma spec_tryCatch {A} E E' (R : A -> Prop) (m : M A) (h : Js.Error -> M A) :
  spec E R m -> (forall e, E e -> spec E' R (h e)) -> spec E' R (tryCatch m h).
Proof.
  intros Hm Hh s I. unfold tryCatch. destruct (Hm s I) as (I' & He & Ha).
  destruct (m s) as [s' [e|a]]; simpl in *.
  - apply Hh; [apply He; reflexivity | exact I'].
  - split; [exact I'|]. split; [discriminate | exact Ha].
Qed.

Lemma spec_when E (b : bool) (m : M unit) : spec E any m -> spec E any (when b m).
Proof. intros Hm. destruct b; [exact Hm | apply spec_ret; exact Logic.I]. Qed.

Lemma spec_getRes {B} E (R : B -> Prop) (f : Response.t -> M B) :
  (forall r, spec E R (f r)) -> spec E R (getRes ≫= f).
Proof. intros Hf s I. rewrite bind_run. simpl. apply Hf, I. Qed.

Lemma spec_weaken {A} (E E' : Js.Error -> Prop) (R : A -> Prop) (m : M A) :
  (forall e, E e -> E' e) -> spec E R m -> spec E' R m.
Proof.
  intros Sub Hm s I. destruct (Hm s I) as (I' & He & Ha).
  split; [exact I'|]. split; [|exact Ha]. intros e Eq. apply Sub, He, Eq.
Qed.

End Specs.


(** The errors for which the [catch] block of the file branch sends
    no message. *)
Definition unclassified (e : Js.Error) : Prop :=
  Js.code e <> Some "ENOENT" /\ Js.includes "Parse error" (Js.message e) = false.

Section BodyProperties.
Context `{Settings}.
Variable P : Body -> Prop.






(** On an unclassified error the [catch] block only ends the response. *)
Lemma fileCatch_unclassified (filePath : option string) (e : Js.Error) (s : HState) :
  unclassified e -> fileCatch filePath e s = res_end None s.
Proof.
  intros [Hc Hm]. unfold fileCatch. rewrite bind_run.
  rewrite (bool_decide_eq_false_2 _ Hc), Hm. reflexivity.
Qed.




End BodyProperties.

Section FileAndJson.
Context `{Settings}.


(** The response is not finished. *)
Definition unsent (s : HState) : Prop := Response.headersSent (res s) = false.

Definition anyError (e : Js.Error) : Prop := True.




(** ** C6 *)



(** ** C5 *)

(** A rendering that parses is sent with [res.json]. *)
Lemma json_body_is_parsed (route : RouteType.t) (req : Request.t) (s : HState)
    (rendered : string) (value : JSONValue) :
  Js.truthy (RouteType.filePath route) = false ->
  DummyJSONParser (RouteType.body route) req = inr rendered ->
  JSON_parse rendered = inr value ->
  resolveBody "application/json" route req s = tryCatch (res_json value) jsonCatch s.
Proof.
  intros Hf Hr Hv. unfold resolveBody. rewrite Hf, String.eqb_refl.
  unfold tryCatch. cbv beta iota. rewrite !bind_run. unfold call. rewrite Hr.
  rewrite bind_run, Hv. reflexivity.
Qed.

(** A parse error whose message names an unexpected token is answered
    with the plain-text error and an alert. *)
Lemma json_token_error_is_reported (route : RouteType.t) (req : Request.t)
    (s : HState) (rendered : string) (error : Js.Error) :
  Js.truthy (RouteType.filePath route) = false ->
  DummyJSONParser (RouteType.body route) req = inr rendered ->
  JSON_parse rendered = inl error ->
  Js.includes "Unexpected token" (Js.message error) = true ->
  resolveBody "application/json" route req s
  = (sendError (JSON_PARSE Errors) true ;; res_end None) s.
Proof.
  intros Hf Hr Hv Hm. unfold resolveBody. rewrite Hf, String.eqb_refl.
  unfold tryCatch. cbv beta iota. rewrite !bind_run. unfold call. rewrite Hr.
  rewrite bind_run, Hv. unfold jsonCatch. rewrite Hm. reflexivity.
Qed.

(** C5 (the defect). A parse error whose message holds none of the
    texts the [catch] block looks for ends the response with no body:
    no plain-text error is sent and no alert is raised. *)
Theorem json_parse_error_without_token_is_silent (route : RouteType.t)
    (req : Request.t) (s : HState) (rendered : string) (error : Js.Error) :
  Js.truthy (RouteType.filePath route) = false ->
  Response.headersSent (res s) = false ->
  DummyJSONParser (RouteType.body route) req = inr rendered ->
  JSON_parse rendered = inl error ->
  Js.includes "Unexpected token" (Js.message error) = false ->
  Js.includes "Parse error" (Js.message error) = false ->
  Js.includes "Missing helper" (Js.message error) = false ->
  resolveBody "application/json" route req s
  = ({| res := {| Response.statusCode := Response.statusCode (res s);
                  Response.headers := Response.headers (res s);
                  Response.body := None;
                  Response.headersSent := true |};
        alerts := alerts s |}, inr tt).
Proof.
  intros Hf Hs Hr Hv H1 H2 H3. unfold resolveBody. rewrite Hf, String.eqb_refl.
  unfold tryCatch. cbv beta iota. rewrite !bind_run. unfold call. rewrite Hr.
  rewrite bind_run, Hv. unfold jsonCatch. rewrite H1, H2, H3. simpl orb. cbv iota.
  rewrite bind_run. simpl. unfold res_end. rewrite bind_run. simpl.
  rewrite Hs. reflexivity.
Qed.

End FileAndJson.

(** ** Route registration *)

(** The layer [setRoutes] adds for a route, if any. *)
Definition routeLayer `{Settings} (environment : EnvironmentType.t)
    (route : RouteType.t) : list Layer :=
  match RouteType.duplicates route with
  | [] =>
      match pathToRegexp (routePath environment route) with
      | inr matcher =>
          [LRoute (RouteType.method route) (routePath environment route) matcher
             environment route]
      | inl _ => []
      end
  | _ :: _ => []
  end.

(** The path as the specification words it: the prefix when there is
    one, a slash, the endpoint, every space escaped. *)
Definition specifiedPath (environment : EnvironmentType.t) (route : RouteType.t)
  : string :=
  Js.replaceSpaces
    ((if Js.truthy (EnvironmentType.endpointPrefix environment)
      then EnvironmentType.endpointPrefix environment else EmptyString)
     +:+ "/" +:+ RouteType.endpoint route).

Definition hasSpace (s : string) : bool :=
  existsb (Ascii.eqb " "%char) (list_ascii_of_string s).

Definition isLogLayer (l : Layer) : bool :=
  match l with LLogRequests _ => true | _ => false end.

Section Registration.
Context `{Settings}.

Lemma setRoute_layers environment server shown route :
  fst (setRoute environment (server, shown) route)
  = server ++ routeLayer environment route.
Proof.
  unfold setRoute, routeLayer.
  destruct (RouteType.duplicates route); [|simpl; apply eq_sym, app_nil_r].
  destruct (pathToRegexp _) as [e|matcher]; [|reflexivity].
  destruct (Js.includes _ _); simpl; apply eq_sym, app_nil_r.
Qed.

Lemma fold_setRoute_layers environment routes server shown :
  fst (fold_left (setRoute environment) routes (server, shown))
  = server ++ flat_map (routeLayer environment) routes.
Proof.
  revert server shown. induction routes as [|route routes IH]; intros server shown.
  - simpl. apply eq_sym, app_nil_r.
  - cbn [fold_left]. pose proof (setRoute_layers environment server shown route) as E.
    destruct (setRoute environment (server, shown) route) as [server' shown'].
    simpl in E. rewrite IH, E. cbn [flat_map]. rewrite <- app_assoc. reflexivity.
Qed.

Lemma setRoutes_layers environment server shown :
  fst (setRoutes environment (server, shown))
  = server ++ flat_map (routeLayer environment) (EnvironmentType.routes environment).
Proof. apply fold_setRoute_layers. Qed.

(** A route layer of the registered ones belongs to a route of the
    environment without duplicates, at the path of that route. *)
Lemma routeLayer_inv environment routes method path matcher environment' route :
  In (LRoute method path matcher environment' route)
     (flat_map (routeLayer environment) routes) ->
  In route routes /\ RouteType.duplicates route = []
  /\ environment' = environment /\ method = RouteType.method route
  /\ path = routePath environment route
  /\ pathToRegexp (routePath environment route) = inr matcher.
Proof.
  intros Hin. apply in_flat_map in Hin as (r & Hr & Hl).
  unfold routeLayer in Hl.
  destruct (RouteType.duplicates r) eqn:Ed; [|destruct Hl].
  destruct (pathToRegexp (routePath environment r)) as [e|m] eqn:Ep; [destruct Hl|].
  destruct Hl as [Hl|[]]. inversion Hl; subst.
  repeat split; first [assumption | reflexivity].
Qed.

(** The layers of the application [start] builds. *)
Lemma buildApp_layers environment shown :
  fst (buildApp environment shown)
  = enableProxy
      (setCors
         (((map LMiddleware ExpressMiddlewares ++ [LLogRequests environment])
           ++ [LEnvironmentLatency (EnvironmentType.uuid environment)])
          ++ flat_map (routeLayer environment) (EnvironmentType.routes environment))
         environment)
      environment.
Proof.
  unfold buildApp, logRequests, setEnvironmentLatency.
  pose proof (setRoutes_layers environment
                ((map LMiddleware ExpressMiddlewares ++ [LLogRequests environment])
                 ++ [LEnvironmentLatency (EnvironmentType.uuid environment)]) shown) as E.
  destruct (setRoutes environment _) as [server shown']. simpl in E. subst server.
  reflexivity.
Qed.

Lemma buildApp_route_layers environment shown method path matcher environment' route :
  In (LRoute method path matcher environment' route) (fst (buildApp environment shown)) ->
  In (LRoute method path matcher environment' route)
     (flat_map (routeLayer environment) (EnvironmentType.routes environment)).
Proof.
  rewrite buildApp_layers. unfold enableProxy, setCors. intros Hin.
  repeat match type of Hin with
         | In _ (if ?c then _ else _) => destruct c
         | In _ (_ ++ _) => apply in_app_or in Hin as [Hin|Hin]
         | In _ (map _ _) => apply in_map_iff in Hin as (f & Hf & _); discriminate
         | In _ [_] => destruct Hin as [Hin|[]]; discriminate
         end; assumption.
Qed.

(** A request answered by a route was answered by one of the layers. *)
Lemma handle_by_route server req svc svc' route result :
  handle server req svc = (svc', ByRoute route result) ->
  exists method path matcher environment,
    In (LRoute method path matcher environment route) server.
Proof.
  revert req svc. induction server as [|layer server IH]; intros req svc; simpl.
  - discriminate.
  - destruct layer as [f|e|u|m p mt e r|e|t].
    + intros E. destruct (IH _ _ E) as (m & p & mt & e & Hin). eauto 8.
    + intros E. destruct (IH _ _ E) as (m & p & mt & e' & Hin). eauto 8.
    + destruct (storeEnvironments svc !! u); [|discriminate].
      intros E. destruct (IH _ _ E) as (m & p & mt & e' & Hin). eauto 8.
    + destruct (_ && _).
      * intros E. inversion E; subst. eauto 8.
      * intros E. destruct (IH _ _ E) as (m' & p' & mt' & e' & Hin). eauto 8.
    + destruct (bool_decide _).
      * destruct (storeEnvironments svc !! _); discriminate.
      * intros E. destruct (IH _ _ E) as (m' & p' & mt' & e' & Hin). eauto 8.
    + discriminate.
Qed.

Lemma hasSpace_String (c : ascii) (s : string) :
  hasSpace (String c s) = Ascii.eqb " "%char c || hasSpace s.
Proof. reflexivity. Qed.

Lemma replaceSpaces_no_space (s : string) : hasSpace (Js.replaceSpaces s) = false.
Proof.
  induction s as [|c s IH]; [reflexivity|]. cbn [Js.replaceSpaces].
  destruct (Ascii.eqb_spec c " "%char) as [->|Hc].
  - change ("%20" +:+ ?r) with (String "%"%char (String "2"%char (String "0"%char r))).
    rewrite !hasSpace_String, IH. reflexivity.
  - rewrite hasSpace_String, IH, orb_false_r. apply Ascii.eqb_neq. congruence.
Qed.

Lemma replaceSpaces_id (s : string) : hasSpace s = false -> Js.replaceSpaces s = s.
Proof.
  induction s as [|c s IH]; [reflexivity|]. rewrite hasSpace_String.
  intros E. apply orb_false_elim in E as [Ec Es]. cbn [Js.replaceSpaces].
  rewrite Ascii.eqb_sym, Ec, (IH Es). reflexivity.
Qed.

Lemma append_String (x : ascii) (a b : string) :
  String x a +:+ b = String x (a +:+ b).
Proof. reflexivity. Qed.

Lemma append_assoc (a b c : string) : (a +:+ b) +:+ c = a +:+ (b +:+ c).
Proof.
  induction a as [|x a IH]; [reflexivity|].
  rewrite !append_String, IH. reflexivity.
Qed.

(** The instance [start] records when the listener is bound. *)
Lemma start_listening_instance environment svc :
  instances (start Listening environment svc) !! EnvironmentType.uuid environment
  = Some {| app := fst (buildApp environment (shownAlerts svc));
            secure := EnvironmentType.https environment;
            listeningPort := EnvironmentType.port environment |}.
Proof.
  unfold start. destruct (buildApp environment (shownAlerts svc)) as [server shown].
  simpl. apply lookup_insert_eq.
Qed.

(** ** C1 *)

(** C1. A route whose duplicates list is not empty gets no layer:
    [setRoutes] adds none to any application, the application [start]
    builds holds none, and no request to it, or to the running
    instance, is answered by the handler of that route.  Every route
    layer of the application belongs to a route of the environment
    whose duplicates list is empty. *)
Theorem duplicated_route_is_never_registered (environment : EnvironmentType.t)
    (shown : list Alert) (route : RouteType.t) :
  RouteType.duplicates route <> [] ->
  (forall server shown0, setRoute environment (server, shown0) route = (server, shown0))
  /\ (forall method path matcher environment',
        ~ In (LRoute method path matcher environment' route)
             (fst (buildApp environment shown)))
  /\ (forall req svc svc' result,
        handle (fst (buildApp environment shown)) req svc
        <> (svc', ByRoute route result))
  /\ (forall req svc svc' result,
        receive (EnvironmentType.uuid environment) req
                (start Listening environment svc)
        <> Some (svc', ByRoute route result))
  /\ (forall method path matcher environment' other,
        In (LRoute method path matcher environment' other)
           (fst (buildApp environment shown)) ->
        In other (EnvironmentType.routes environment)
        /\ RouteType.duplicates other = []).
Proof.
  intros Hd.
  assert (Hno : forall shown1 method path matcher environment',
            ~ In (LRoute method path matcher environment' route)
                 (fst (buildApp environment shown1))).
  { intros shown1 m p mt e Hin. apply buildApp_route_layers in Hin.
    apply routeLayer_inv in Hin as (_ & Hdup & _). exact (Hd Hdup). }
  assert (Hh : forall shown1 req svc svc' result,
            handle (fst (buildApp environment shown1)) req svc
            <> (svc', ByRoute route result)).
  { intros shown1 req svc svc' result E.
    destruct (handle_by_route _ _ _ _ _ _ E) as (m & p & mt & e & Hin).
    exact (Hno _ _ _ _ _ Hin). }
  split.
  { intros server shown0. unfold setRoute.
    destruct (RouteType.duplicates route); [congruence | reflexivity]. }
  split; [apply Hno|]. split; [apply Hh|]. split.
  - intros req svc svc' result. unfold receive.
    rewrite start_listening_instance. cbn [app]. intros E. inversion E as [E'].
    exact (Hh _ _ _ _ _ E').
  - intros m p mt e other Hin. apply buildApp_route_layers in Hin.
    apply routeLayer_inv in Hin as (Hin & Hdup & _). split; assumption.
Qed.

(** ** C9 *)

(** C9 (amended). A route without duplicates is registered at a slash,
    then the prefix and a slash when the prefix is not empty, then the
    endpoint with every space replaced by %20; the prefix is taken as
    it is.  The escaped endpoint holds no space, and an endpoint
    without spaces is unchanged. *)
Theorem route_path_escapes_endpoint_spaces (environment : EnvironmentType.t)
    (route : RouteType.t) (matcher : string -> bool) :
  In route (EnvironmentType.routes environment) ->
  RouteType.duplicates route = [] ->
  pathToRegexp (routePath environment route) = inr matcher ->
  (forall shown,
     In (LRoute (RouteType.method route) (routePath environment route) matcher
           environment route)
        (fst (buildApp environment shown)))
  /\ (forall shown method path matcher' environment',
        In (LRoute method path matcher' environment' route)
           (fst (buildApp environment shown)) ->
        path = routePath environment route)
  /\ (EnvironmentType.endpointPrefix environment = EmptyString ->
      routePath environment route
      = "/" +:+ Js.replaceSpaces (RouteType.endpoint route))
  /\ (EnvironmentType.endpointPrefix environment <> EmptyString ->
      routePath environment route
      = "/" +:+ EnvironmentType.endpointPrefix environment +:+ "/"
            +:+ Js.replaceSpaces (RouteType.endpoint route))
  /\ hasSpace (Js.replaceSpaces (RouteType.endpoint route)) = false
  /\ (hasSpace (RouteType.endpoint route) = false ->
      Js.replaceSpaces (RouteType.endpoint route) = RouteType.endpoint route).
Proof.
  intros Hin Hd Hp. split.
  { intros shown. rewrite buildApp_layers. unfold enableProxy, setCors.
    assert (Hl : In (LRoute (RouteType.method route) (routePath environment route)
                       matcher environment route)
                    (flat_map (routeLayer environment)
                       (EnvironmentType.routes environment))).
    { apply in_flat_map. exists route. split; [exact Hin|].
      unfold routeLayer. rewrite Hd, Hp. left. reflexivity. }
    repeat match goal with
           | |- In _ (if ?c then _ else _) => destruct c
           | |- In _ (_ ++ [_]) => apply in_or_app; left
           end; apply in_or_app; right; exact Hl. }
  split.
  { intros shown m p mt e Hl. apply buildApp_route_layers in Hl.
    apply routeLayer_inv in Hl as (_ & _ & _ & _ & Hpath & _). exact Hpath. }
  unfold routePath. split; [intros ->; reflexivity|]. split.
  { intros Hne. destruct (EnvironmentType.endpointPrefix environment) as [|c p];
      [congruence|]. cbn [Js.truthy]. rewrite append_assoc. reflexivity. }
  split; [apply replaceSpaces_no_space | apply replaceSpaces_id].
Qed.

(** ** C7 *)

(** C7. [enableProxy] adds the proxy layer exactly when proxy mode is
    on, the proxy host is not empty and [isValidURL] accepts it;
    otherwise the application is left as it is.  [isValidURL] is false
    exactly when the URL constructor throws; it accepts
    https://example.com and rejects not-a-url. *)
Theorem proxy_enabled_iff_valid_target (server : list Layer)
    (environment : EnvironmentType.t) :
  ((exists layer, enableProxy server environment = server ++ [layer])
   <-> (EnvironmentType.proxyMode environment = true
        /\ EnvironmentType.proxyHost environment <> EmptyString
        /\ isValidURL (EnvironmentType.proxyHost environment) = true))
  /\ (EnvironmentType.proxyMode environment = true ->
      EnvironmentType.proxyHost environment <> EmptyString ->
      isValidURL (EnvironmentType.proxyHost environment) = true ->
      enableProxy server environment
      = server ++ [LProxy (EnvironmentType.proxyHost environment)])
  /\ (isValidURL (EnvironmentType.proxyHost environment) = false ->
      enableProxy server environment = server)
  /\ (forall address,
        isValidURL address = false <-> exists e, Url.construct address = inl e)
  /\ isValidURL "https://example.com" = true
  /\ isValidURL "not-a-url" = false.
Proof.
  assert (Ht : forall s, Js.truthy s = true <-> s <> EmptyString).
  { intros [|c s]; simpl; split; congruence. }
  unfold enableProxy. split; [split|].
  - intros [layer E].
    destruct (EnvironmentType.proxyMode environment); simpl in E.
    + destruct (Js.truthy _) eqn:Et; simpl in E.
      * destruct (isValidURL _); [apply Ht in Et; auto|].
        apply (f_equal (@length Layer)) in E. rewrite length_app in E. simpl in E. lia.
      * apply (f_equal (@length Layer)) in E. rewrite length_app in E. simpl in E. lia.
    + apply (f_equal (@length Layer)) in E. rewrite length_app in E. simpl in E. lia.
  - intros (Hm & Hh & Hv). apply Ht in Hh. rewrite Hm, Hh, Hv. eauto.
  - split.
    { intros Hm Hh Hv. apply Ht in Hh. rewrite Hm, Hh, Hv. reflexivity. }
    split.
    { intros Hv. rewrite Hv, andb_false_r. reflexivity. }
    split.
    { intros address. unfold isValidURL.
      destruct (Url.construct address) as [e|u]; split;
        try discriminate; eauto. intros [e' E]. discriminate. }
    split; reflexivity.
Qed.

End Registration.

(** ** The request log *)

(** The log buffer of an environment; none yet is an empty one. *)
Definition bufferOf `{Settings} (environment : EnvironmentType.t)
    (logs : gmap string (list LogEntry)) : list LogEntry :=
  default [] (logs !! EnvironmentType.uuid environment).

(** The request as the logging middleware receives it, after the
    middlewares registered before it. *)
Definition throughMiddlewares `{Settings} (req : Request.t) : Request.t :=
  fold_left (fun r f => f r) ExpressMiddlewares req.

Section Logs.
Context `{Settings}.

Lemma firstn_app_firstn {A} (n m : nat) (l1 l2 : list A) :
  (n <= m)%nat -> firstn n (l1 ++ firstn m l2) = firstn n (l1 ++ l2).
Proof.
  revert n. induction l1 as [|x l1 IH]; intros n Hn.
  - simpl. rewrite firstn_firstn. f_equal. lia.
  - destruct n as [|n]; [reflexivity|]. simpl. f_equal. apply IH. lia.
Qed.

(** Below capacity the entry is added; at capacity the last entry
    makes room: in both cases the first [maxLogsPerEnvironment]
    entries remain. *)
Lemma push_firstn (x : LogEntry) (l : list LogEntry) :
  (0 < maxLogsPerEnvironment)%nat ->
  (length l <= maxLogsPerEnvironment)%nat ->
  x :: (if (maxLogsPerEnvironment <=? length l)%nat then removelast l else l)
  = firstn maxLogsPerEnvironment (x :: l).
Proof.
  intros Hpos Hlen. destruct (Nat.leb_spec maxLogsPerEnvironment (length l)) as [Hle|Hlt].
  - assert (E : length l = maxLogsPerEnvironment) by lia.
    destruct maxLogsPerEnvironment as [|n]; [lia|]. simpl. f_equal.
    rewrite removelast_firstn_len. f_equal. lia.
  - symmetry. apply firstn_all2. simpl. lia.
Qed.

Lemma logRequest_lookup environment req logs :
  logRequest environment req logs !! EnvironmentType.uuid environment
  = Some (formatRequestLog req
          :: (if (maxLogsPerEnvironment <=? length (bufferOf environment logs))%nat
              then removelast (bufferOf environment logs)
              else bufferOf environment logs)).
Proof. unfold logRequest, bufferOf. apply lookup_insert_eq. Qed.

Lemma logRequest_other environment req logs other :
  other <> EnvironmentType.uuid environment ->
  logRequest environment req logs !! other = logs !! other.
Proof. intros Hne. unfold logRequest. apply lookup_insert_ne. congruence. Qed.

Lemma bufferOf_logRequest environment req logs :
  (0 < maxLogsPerEnvironment)%nat ->
  (length (bufferOf environment logs) <= maxLogsPerEnvironment)%nat ->
  bufferOf environment (logRequest environment req logs)
  = firstn maxLogsPerEnvironment (formatRequestLog req :: bufferOf environment logs).
Proof.
  intros Hpos Hlen. unfold bufferOf at 1. rewrite logRequest_lookup. simpl.
  apply push_firstn; assumption.
Qed.

(** After any requests the buffer holds the most recent entries, the
    newest first, up to the capacity. *)
Lemma bufferOf_logAll environment reqs logs :
  (0 < maxLogsPerEnvironment)%nat ->
  (length (bufferOf environment logs) <= maxLogsPerEnvironment)%nat ->
  bufferOf environment (logAll environment reqs logs)
  = firstn maxLogsPerEnvironment
      (rev (map formatRequestLog reqs) ++ bufferOf environment logs).
Proof.
  intros Hpos. revert logs. induction reqs as [|req reqs IH]; intros logs Hlen.
  - simpl. symmetry. apply firstn_all2. exact Hlen.
  - unfold logAll in *. cbn [fold_left]. rewrite IH.
    + rewrite bufferOf_logRequest by assumption.
      rewrite firstn_app_firstn by lia.
      simpl. rewrite <- app_assoc. reflexivity.
    + rewrite bufferOf_logRequest by assumption. rewrite length_firstn. lia.
Qed.

Lemma handle_keeps_logs server req svc :
  forallb (fun l => negb (isLogLayer l)) server = true ->
  environmentsLogs (fst (handle server req svc)) = environmentsLogs svc.
Proof.
  revert req svc. induction server as [|layer server IH]; intros req svc Hn;
    [reflexivity|].
  simpl in Hn. apply andb_prop in Hn as [Hl Hn]. simpl.
  destruct layer as [f|e|u|m p mt e r|e|t]; try discriminate.
  - apply IH, Hn.
  - destruct (storeEnvironments svc !! u); [apply IH, Hn | reflexivity].
  - destruct (_ && _); [reflexivity | apply IH, Hn].
  - destruct (bool_decide _); [|apply IH, Hn].
    destruct (storeEnvironments svc !! _); reflexivity.
  - reflexivity.
Qed.

Lemma routeLayers_no_log environment routes :
  forallb (fun l => negb (isLogLayer l)) (flat_map (routeLayer environment) routes)
  = true.
Proof.
  apply forallb_forall. intros l Hin. apply in_flat_map in Hin as (r & _ & Hl).
  unfold routeLayer in Hl. destruct (RouteType.duplicates r); [|destruct Hl].
  destruct (pathToRegexp _); [destruct Hl|]. destruct Hl as [<-|[]]. reflexivity.
Qed.

(** Every request to the application [start] builds is logged, once,
    whatever answers it. *)
Lemma every_request_is_logged environment shown req svc :
  environmentsLogs (fst (handle (fst (buildApp environment shown)) req svc))
  = logRequest environment (throughMiddlewares req) (environmentsLogs svc).
Proof.
  rewrite buildApp_layers. unfold enableProxy, setCors, throughMiddlewares.
  set (tail := flat_map (routeLayer environment) (EnvironmentType.routes environment)).
  assert (Ht : forall extra,
            forallb (fun l => negb (isLogLayer l)) extra = true ->
            environmentsLogs
              (fst (handle (map LMiddleware ExpressMiddlewares
                            ++ [LLogRequests environment]
                            ++ [LEnvironmentLatency (EnvironmentType.uuid environment)]
                            ++ tail ++ extra) req svc))
            = logRequest environment (fold_left (fun r f => f r) ExpressMiddlewares req)
                (environmentsLogs svc)).
  { intros extra He. revert req.
    induction ExpressMiddlewares as [|f fs IH]; intros req.
    - change (handle (map LMiddleware [] ++ [LLogRequests environment] ++ ?rest) req svc)
        with (handle rest req
                (withLogs svc (logRequest environment req (environmentsLogs svc)))).
      change (fold_left _ [] req) with req.
      rewrite handle_keeps_logs; [reflexivity|].
      rewrite !forallb_app. unfold tail.
      rewrite routeLayers_no_log, He. reflexivity.
    - change (handle (map LMiddleware (f :: fs) ++ ?rest) req svc)
        with (handle (map LMiddleware fs ++ rest) (f req) svc).
      apply IH. }
  destruct (EnvironmentType.cors environment);
    destruct (_ && _);
    rewrite <- ?app_assoc;
    first [ apply Ht; reflexivity
          | rewrite <- (app_nil_r tail); apply Ht; reflexivity ].
Qed.

(** ** C2 *)

(** C2. With a capacity of at least one entry, the logging middleware
    keeps the buffer of the environment within the capacity: a request
    finds the buffer at capacity and its last entry is dropped, or
    below it, and its entry is put in front; the buffers of other
    environments are left alone.  Every request to the application is
    logged this way.  After one request and as many more as the
    capacity, the buffer holds the entries of the later ones only, the
    newest first. *)
Theorem log_buffer_never_exceeds_capacity (environment : EnvironmentType.t)
    (logs : gmap string (list LogEntry)) :
  (0 < maxLogsPerEnvironment)%nat ->
  (length (bufferOf environment logs) <= maxLogsPerEnvironment)%nat ->
  (forall req,
     logRequest environment req logs !! EnvironmentType.uuid environment
     = Some (formatRequestLog req
             :: (if (maxLogsPerEnvironment <=? length (bufferOf environment logs))%nat
                 then removelast (bufferOf environment logs)
                 else bufferOf environment logs))
     /\ (length (bufferOf environment (logRequest environment req logs))
         <= maxLogsPerEnvironment)%nat
     /\ (forall other, other <> EnvironmentType.uuid environment ->
                       logRequest environment req logs !! other = logs !! other))
  /\ (forall shown req svc,
        environmentsLogs svc = logs ->
        environmentsLogs (fst (handle (fst (buildApp environment shown)) req svc))
        = logRequest environment (throughMiddlewares req) logs)
  /\ (forall reqs,
        (length (bufferOf environment (logAll environment reqs logs))
         <= maxLogsPerEnvironment)%nat)
  /\ (forall first rest,
        length rest = maxLogsPerEnvironment ->
        bufferOf environment (logAll environment (first :: rest) logs)
        = rev (map formatRequestLog rest)
        /\ hd_error (bufferOf environment (logAll environment (first :: rest) logs))
           = Some (formatRequestLog (List.last rest first))
        /\ (~ In (formatRequestLog first) (map formatRequestLog rest) ->
            ~ In (formatRequestLog first)
                 (bufferOf environment (logAll environment (first :: rest) logs)))).
Proof.
  intros Hpos Hlen. split; [|split; [|split]].
  - intros req. split; [apply logRequest_lookup|]. split.
    + rewrite bufferOf_logRequest by assumption. rewrite length_firstn. lia.
    + intros other Hne. apply logRequest_other, Hne.
  - intros shown req svc <-. apply every_request_is_logged.
  - intros reqs. rewrite bufferOf_logAll by assumption. rewrite length_firstn. lia.
  - intros first rest Hrest.
    assert (E : bufferOf environment (logAll environment (first :: rest) logs)
                = rev (map formatRequestLog rest)).
    { rewrite bufferOf_logAll by assumption. simpl. rewrite <- app_assoc.
      rewrite firstn_app.
      replace (maxLogsPerEnvironment - length (rev (map formatRequestLog rest)))%nat
        with 0%nat by (rewrite length_rev, length_map; lia).
      rewrite firstn_all2 by (rewrite length_rev, length_map; lia).
      simpl. apply app_nil_r. }
    split; [exact E|]. rewrite E. split.
    + destruct rest as [|r rest] using rev_ind; [simpl in Hrest; lia|].
      rewrite map_app, rev_app_distr, last_last. reflexivity.
    + intros Hn Hin. apply Hn. apply in_rev. exact Hin.
Qed.

(** ** C8 *)

(** C8. Without a registered instance [stop] returns the service as it
    is.  With one, the instance is killed and removed from the map,
    the other instances stay, the status running = false, needRestart
    = false is posted to the store, and the environment no longer
    receives requests. *)
Theorem stop_is_noop_without_instance (environmentUUID : string) (svc : Service) :
  (instances svc !! environmentUUID = None -> stop environmentUUID svc = svc)
  /\ (forall instance,
        instances svc !! environmentUUID = Some instance ->
        instances (stop environmentUUID svc) !! environmentUUID = None
        /\ (forall other, other <> environmentUUID ->
              instances (stop environmentUUID svc) !! other = instances svc !! other)
        /\ killed (stop environmentUUID svc) = killed svc ++ [instance]
        /\ storeUpdates (stop environmentUUID svc)
           = storeUpdates svc ++ [UPDATE_ENVIRONMENT_STATUS false false]
        /\ environmentsLogs (stop environmentUUID svc) = environmentsLogs svc
        /\ shownAlerts (stop environmentUUID svc) = shownAlerts svc
        /\ (forall req, receive environmentUUID req (stop environmentUUID svc) = None)
        /\ stop environmentUUID (stop environmentUUID svc) = stop environmentUUID svc).
Proof.
  unfold stop. split.
  - intros ->. reflexivity.
  - intros instance ->. cbn.
    assert (Hd : delete environmentUUID (instances svc) !! environmentUUID = None)
      by apply lookup_delete_eq.
    repeat split; try assumption.
    + intros other Hne. apply lookup_delete_ne. congruence.
    + intros req. unfold receive. cbn. rewrite Hd. reflexivity.
    + rewrite Hd. reflexivity.
Qed.

End Logs.

(** * Error answers, dispatch and life cycle *)

(** ** What the response methods keep *)

(** A property of the handler state that [setHeader], [res.end] and
    [showAlert] keep is kept by the response methods, by [setHeaders],
    by [sendError] and by the body resolution, whether they return or
    throw. *)
Section Keeps.
Context `{Settings}.
Variable Inv : HState -> Prop.
Hypothesis Inv_setHeader :
  forall name value, spec Inv anyError any (setHeader name value).
Hypothesis Inv_res_end : forall chunk, spec Inv anyError any (res_end chunk).
Hypothesis Inv_showAlert :
  forall type message, spec Inv anyError any (showAlert type message).

Definition keeps {A} (m : M A) : Prop := spec Inv anyError any m.

Lemma keeps_ret {A} (a : A) : keeps (mret a).
Proof. apply spec_ret. exact Logic.I. Qed.

Lemma keeps_throw {A} (e : Js.Error) : keeps (@throw A e).
Proof. apply spec_throw. exact Logic.I. Qed.

Lemma keeps_call {A} (r : Js.Error + A) : keeps (call r).
Proof. apply spec_call; intros; exact Logic.I. Qed.

Lemma keeps_bind {A B} (m : M A) (f : A -> M B) :
  keeps m -> (forall a, keeps (f a)) -> keeps (m ≫= f).
Proof.
  intros Hm Hf. apply spec_bind with (R := any); [exact Hm | intros a _; apply Hf].
Qed.

Lemma keeps_tryCatch {A} (m : M A) (h : Js.Error -> M A) :
  keeps m -> (forall e, keeps (h e)) -> keeps (tryCatch m h).
Proof.
  intros Hm Hh.
  apply spec_tryCatch with (E := anyError); [exact Hm | intros e _; apply Hh].
Qed.

Lemma keeps_when (b : bool) (m : M unit) : keeps m -> keeps (when b m).
Proof. apply spec_when. Qed.

Lemma keeps_getRes {B} (f : Response.t -> M B) :
  (forall r, keeps (f r)) -> keeps (getRes ≫= f).
Proof. apply spec_getRes. Qed.

Lemma keeps_forEach {A} (l : list A) (f : A -> M unit) :
  (forall x, keeps (f x)) -> keeps (forEach l f).
Proof.
  intros Hf. induction l as [|x l IH]; simpl; [apply keeps_ret|].
  apply keeps_bind; [apply Hf | intros _; exact IH].
Qed.

Lemma keeps_res_set (field value : string) : keeps (res_set field value).
Proof. unfold res_set. destruct (String.eqb _ _); apply Inv_setHeader. Qed.

Lemma keeps_res_send (chunk : Body) : keeps (res_send chunk).
Proof.
  unfold res_send. apply keeps_getRes. intros r.
  apply keeps_bind; [|intros _; apply Inv_res_end].
  destruct chunk.
  - apply keeps_bind; [apply keeps_when, keeps_res_set|]. intros _.
    apply keeps_getRes. intros r'.
    destruct (Response.get _ r'); [|apply keeps_ret].
    destruct (setCharset _); [apply keeps_res_set | apply keeps_throw].
  - apply keeps_when, keeps_res_set.
Qed.

Lemma keeps_res_json (v : JSONValue) : keeps (res_json v).
Proof.
  unfold res_json. apply keeps_getRes. intros r.
  apply keeps_bind; [apply keeps_when, keeps_res_set|].
  intros _. apply keeps_res_send.
Qed.

Lemma keeps_sendError (errorMessage : string) (withAlert : bool) :
  keeps (sendError errorMessage withAlert).
Proof.
  unfold sendError.
  apply keeps_bind; [apply keeps_when, Inv_showAlert|]. intros _.
  apply keeps_bind; [apply keeps_res_set|]. intros _. apply keeps_res_send.
Qed.

Lemma keeps_setHeaders (headers : list HeaderType.t) (req : Request.t) :
  keeps (setHeaders headers req).
Proof.
  unfold setHeaders. apply keeps_forEach.
  intros [[key|] [value|]]; simpl; try apply keeps_ret.
  destruct (_ && _); [|apply keeps_ret].
  apply keeps_bind; [apply keeps_call|]. intros rendered. apply keeps_res_set.
Qed.

Lemma keeps_fileCatch (filePath : option string) (e : Js.Error) :
  keeps (fileCatch filePath e).
Proof.
  unfold fileCatch. apply keeps_bind; [|intros _; apply Inv_res_end].
  destruct (bool_decide _); [apply keeps_sendError|].
  destruct (Js.includes _ _); [apply keeps_sendError | apply keeps_ret].
Qed.

Lemma keeps_serveFile (routeContentType : string) (route : RouteType.t)
    (req : Request.t) (filePath : string) :
  keeps (serveFile routeContentType route req filePath).
Proof.
  unfold serveFile.
  apply keeps_bind; [apply keeps_when, keeps_res_set|]. intros _.
  apply keeps_bind; [apply keeps_call|]. intros fileContent.
  apply keeps_bind.
  { destruct (hasTemplating _); [|apply keeps_ret].
    apply keeps_bind; [apply keeps_call|]. intros ?. apply keeps_ret. }
  intros content.
  apply keeps_bind; [apply keeps_when, keeps_res_set|]. intros _.
  apply keeps_res_send.
Qed.

Lemma keeps_jsonCatch (e : Js.Error) : keeps (jsonCatch e).
Proof.
  unfold jsonCatch. apply keeps_bind; [|intros _; apply Inv_res_end].
  destruct (_ || _); [apply keeps_sendError|].
  destruct (Js.includes _ _); [apply keeps_sendError | apply keeps_ret].
Qed.

Lemma keeps_bodyCatch (e : Js.Error) : keeps (bodyCatch e).
Proof.
  unfold bodyCatch. apply keeps_bind; [|intros _; apply Inv_res_end].
  destruct (Js.includes _ _); [apply keeps_sendError | apply keeps_ret].
Qed.

Lemma keeps_resolveBody (routeContentType : string) (route : RouteType.t)
    (req : Request.t) :
  keeps (resolveBody routeContentType route req).
Proof.
  unfold resolveBody. destruct (Js.truthy _).
  - destruct (DummyJSONParser _ _) as [e|filePath]; [apply keeps_fileCatch|].
    apply keeps_tryCatch; [apply keeps_serveFile | apply keeps_fileCatch].
  - destruct (String.eqb _ _).
    + apply keeps_tryCatch; [|apply keeps_jsonCatch].
      apply keeps_bind; [apply keeps_call|]. intros rendered.
      apply keeps_bind; [apply keeps_call|]. intros v. apply keeps_res_json.
    + apply keeps_tryCatch; [|apply keeps_bodyCatch].
      apply keeps_bind; [apply keeps_call|]. intros rendered. apply keeps_res_send.
Qed.

End Keeps.

(** The status of the response is [code]. *)
Definition statusIs (code : Z) (s : HState) : Prop :=
  Response.statusCode (res s) = code.

(** The alerts shown so far extend [shown]. *)
Definition alertsExtend (shown : list Alert) (s : HState) : Prop :=
  exists more, alerts s = shown ++ more.

(** The alerts shown so far are [shown]. *)
Definition alertsAre (shown : list Alert) (s : HState) : Prop :=
  alerts s = shown.

(** A computation that returns has finished the response. *)
Definition answers {A} (m : M A) : Prop :=
  forall s s' a, m s = (s', inr a) -> Response.headersSent (res s') = true.

(** The error Node raises for a header written to a finished response. *)
Definition headersSentError : Js.Error :=
  Js.mkError (Some "ERR_HTTP_HEADERS_SENT")
    "Cannot set headers after they are sent to the client".

Section HandlerInvariants.
Context `{Settings}.

Lemma spec_of_step {A} (Inv : HState -> Prop) (m : M A) :
  (forall s, Inv s -> Inv (fst (m s))) -> spec Inv anyError any m.
Proof. intros Hf s I. split; [apply Hf, I|]. split; intros; exact Logic.I. Qed.

(** [setHeader] touches the headers only. *)
Lemma setHeader_frame (name value : string) (s : HState) :
  Response.statusCode (res (fst (setHeader name value s))) = Response.statusCode (res s)
  /\ Response.body (res (fst (setHeader name value s))) = Response.body (res s)
  /\ Response.headersSent (res (fst (setHeader name value s)))
     = Response.headersSent (res s)
  /\ alerts (fst (setHeader name value s)) = alerts s.
Proof.
  unfold setHeader. rewrite bind_run. simpl.
  destruct (Response.headersSent (res s)) eqn:Es;
    [|destruct (validHeaderName name); [destruct (validHeaderValue value)|]];
    simpl; repeat split; try reflexivity; exact Es.
Qed.

(** [res.end] touches neither the status, the headers nor the alerts. *)
Lemma res_end_frame (chunk : option Body) (s : HState) :
  Response.statusCode (res (fst (res_end chunk s))) = Response.statusCode (res s)
  /\ Response.headers (res (fst (res_end chunk s))) = Response.headers (res s)
  /\ alerts (fst (res_end chunk s)) = alerts s.
Proof.
  unfold res_end. rewrite bind_run. simpl.
  destruct (Response.headersSent (res s)); repeat split.
Qed.

Lemma statusIs_setHeader (code : Z) (name value : string) :
  spec (statusIs code) anyError any (setHeader name value).
Proof.
  apply spec_of_step. unfold statusIs. intros s <-. apply setHeader_frame.
Qed.

Lemma statusIs_res_end (code : Z) (chunk : option Body) :
  spec (statusIs code) anyError any (res_end chunk).
Proof.
  apply spec_of_step. unfold statusIs. intros s <-. apply res_end_frame.
Qed.

Lemma statusIs_showAlert (code : Z) (type message : string) :
  spec (statusIs code) anyError any (showAlert type message).
Proof. apply spec_of_step. intros s I. exact I. Qed.

Lemma alertsExtend_setHeader (shown : list Alert) (name value : string) :
  spec (alertsExtend shown) anyError any (setHeader name value).
Proof.
  apply spec_of_step. unfold alertsExtend. intros s [more E]. exists more.
  rewrite <- E. apply setHeader_frame.
Qed.

Lemma alertsExtend_res_end (shown : list Alert) (chunk : option Body) :
  spec (alertsExtend shown) anyError any (res_end chunk).
Proof.
  apply spec_of_step. unfold alertsExtend. intros s [more E]. exists more.
  rewrite <- E. apply res_end_frame.
Qed.

Lemma alertsExtend_showAlert (shown : list Alert) (type message : string) :
  spec (alertsExtend shown) anyError any (showAlert type message).
Proof.
  apply spec_of_step. unfold alertsExtend. intros s [more E].
  exists (more ++ [(type, message)]). simpl. rewrite E, app_assoc. reflexivity.
Qed.

Lemma alertsAre_setHeader (shown : list Alert) (name value : string) :
  spec (alertsAre shown) anyError any (setHeader name value).
Proof.
  apply spec_of_step. unfold alertsAre. intros s <-. apply setHeader_frame.
Qed.

Lemma alertsAre_res_end (shown : list Alert) (chunk : option Body) :
  spec (alertsAre shown) anyError any (res_end chunk).
Proof.
  apply spec_of_step. unfold alertsAre. intros s <-. apply res_end_frame.
Qed.

(** *** Finished responses *)

Lemma answers_res_end (chunk : option Body) : answers (res_end chunk).
Proof.
  intros s s' a. unfold res_end. rewrite bind_run. simpl.
  destruct (Response.headersSent (res s)) eqn:Es; intros E; inversion E; subst;
    [exact Es | reflexivity].
Qed.

Lemma answers_bind {A B} (m : M A) (f : A -> M B) :
  (forall a, answers (f a)) -> answers (m ≫= f).
Proof.
  intros Hf s s' b. rewrite bind_run.
  destruct (m s) as [s1 [e|a]]; [discriminate|]. apply Hf.
Qed.

Lemma answers_tryCatch {A} (m : M A) (h : Js.Error -> M A) :
  answers m -> (forall e, answers (h e)) -> answers (tryCatch m h).
Proof.
  intros Hm Hh s s' a. unfold tryCatch.
  destruct (m s) as [s1 [e|a1]] eqn:Em; [apply Hh|].
  intros E. inversion E; subst. exact (Hm _ _ _ Em).
Qed.

Lemma answers_res_send (chunk : Body) : answers (res_send chunk).
Proof.
  unfold res_send. apply answers_bind. intros r.
  apply answers_bind. intros _. apply answers_res_end.
Qed.

Lemma answers_resolveBody (routeContentType : string) (route : RouteType.t)
    (req : Request.t) :
  answers (resolveBody routeContentType route req).
Proof.
  assert (HF : forall fp e, answers (fileCatch fp e)).
  { intros fp e. unfold fileCatch. apply answers_bind. intros _. apply answers_res_end. }
  unfold resolveBody. destruct (Js.truthy _).
  - destruct (DummyJSONParser _ _) as [e|filePath]; [apply HF|].
    apply answers_tryCatch; [|apply HF].
    unfold serveFile. apply answers_bind. intros _.
    apply answers_bind. intros fileContent. apply answers_bind. intros content.
    apply answers_bind. intros _. apply answers_res_send.
  - destruct (String.eqb _ _).
    + apply answers_tryCatch.
      * apply answers_bind. intros rendered. apply answers_bind. intros v.
        unfold res_json. apply answers_bind. intros r. apply answers_bind.
        intros _. apply answers_res_send.
      * intros e. unfold jsonCatch. apply answers_bind. intros _.
        apply answers_res_end.
    + apply answers_tryCatch.
      * apply answers_bind. intros rendered. apply answers_res_send.
      * intros e. unfold bodyCatch. apply answers_bind. intros _.
        apply answers_res_end.
Qed.

(** ** The route handler as a whole *)

(** What follows [res.status] in the handler. *)
Lemma routeHandler_run (environment : EnvironmentType.t) (route : RouteType.t)
    (req : Request.t) (s : HState) :
  routeHandler environment route req s
  = (setHeaders (EnvironmentType.headers environment) req ;;
     setHeaders (RouteType.headers route) req ;;
     resolveBody (getRouteContentType environment route) route req)
      (fst (res_status (RouteType.statusCode route) s)).
Proof. reflexivity. Qed.

Lemma keeps_afterStatus (Inv : HState -> Prop) (environment : EnvironmentType.t)
    (route : RouteType.t) (req : Request.t) :
  (forall name value, spec Inv anyError any (setHeader name value)) ->
  (forall chunk, spec Inv anyError any (res_end chunk)) ->
  (forall type message, spec Inv anyError any (showAlert type message)) ->
  keeps Inv (setHeaders (EnvironmentType.headers environment) req ;;
             setHeaders (RouteType.headers route) req ;;
             resolveBody (getRouteContentType environment route) route req).
Proof.
  intros H1 H2 H3.
  apply keeps_bind; [apply keeps_setHeaders; assumption|]. intros _.
  apply keeps_bind; [apply keeps_setHeaders; assumption|]. intros _.
  apply keeps_resolveBody; assumption.
Qed.

(** A handler only adds to the alerts. *)
Lemma routeHandler_alerts (environment : EnvironmentType.t) (route : RouteType.t)
    (req : Request.t) (s : HState) :
  exists more, alerts (fst (routeHandler environment route req s)) = alerts s ++ more.
Proof.
  rewrite routeHandler_run.
  apply (keeps_afterStatus (alertsExtend (alerts s)) environment route req
           (alertsExtend_setHeader _) (alertsExtend_res_end _)
           (alertsExtend_showAlert _)).
  exists []. simpl. rewrite app_nil_r. reflexivity.
Qed.

(** X1. Whatever the handler of a route does, the status it leaves on
    the response is the status code of the route (error texts are sent
    under it too), and the alerts shown before are still there, in
    front of the new ones.  A handler that returns has finished the
    response: every path through the body resolution ends in
    [res.send] or [res.end]. *)
Theorem handler_that_returns_has_answered (environment : EnvironmentType.t)
    (route : RouteType.t) (req : Request.t) (s : HState) :
  Response.statusCode (res (fst (routeHandler environment route req s)))
  = RouteType.statusCode route
  /\ (exists more,
        alerts (fst (routeHandler environment route req s)) = alerts s ++ more)
  /\ (forall s',
        routeHandler environment route req s = (s', inr tt) ->
        Response.headersSent (res s') = true).
Proof.
  split; [|split].
  - rewrite routeHandler_run.
    apply (keeps_afterStatus (statusIs (RouteType.statusCode route)) environment
             route req (statusIs_setHeader _) (statusIs_res_end _)
             (statusIs_showAlert _)).
    reflexivity.
  - apply routeHandler_alerts.
  - intros s'. rewrite routeHandler_run. apply answers_bind. intros _.
    apply answers_bind. intros _. apply answers_resolveBody.
Qed.

End HandlerInvariants.

(** ** Errors of [setHeaders] *)

(** The errors [setHeaders] can raise on an unfinished response: the
    renderer's, for the value of an entry it applies, or Node's for a
    character it refuses in a header value. *)
Definition headerError `{Settings} (headers : list HeaderType.t) (req : Request.t)
    (e : Js.Error) : Prop :=
  (exists key value,
     In (HeaderType.mk (Some key) (Some value)) headers
     /\ headerIsApplied (HeaderType.mk (Some key) (Some value)) = true
     /\ DummyJSONParser value req = inl e)
  \/ Js.code e = Some "ERR_INVALID_CHAR".

(** The response is not finished and holds what [r] holds, the headers
    apart. *)
Definition headersOnly (r : Response.t) (s : HState) : Prop :=
  Response.headersSent (res s) = false
  /\ Response.statusCode (res s) = Response.statusCode r
  /\ Response.body (res s) = Response.body r.

Section HeaderErrors.
Context `{Settings}.

Lemma spec_forEach {A} (Inv : HState -> Prop) (E : Js.Error -> Prop)
    (l : list A) (f : A -> M unit) :
  (forall x, In x l -> spec Inv E any (f x)) -> spec Inv E any (forEach l f).
Proof.
  induction l as [|x l IH]; intros Hf; simpl.
  - apply spec_ret. exact Logic.I.
  - apply spec_bind with (R := any); [apply Hf; left; reflexivity|].
    intros _ _. apply IH. intros y Hy. apply Hf. right. exact Hy.
Qed.

(** A key [setHeaders] lets through is a name Node accepts. *)
Lemma headerIsApplied_validHeaderName (key value : string) :
  headerIsApplied (HeaderType.mk (Some key) (Some value)) = true ->
  validHeaderName key = true.
Proof.
  intros Ha. apply headerIsApplied_iff in Ha as (k & v & E & Hk & _ & Ht).
  inversion E; subst k v. unfold validHeaderName. rewrite Ht.
  destruct key; [congruence | reflexivity].
Qed.

(** With a valid name, only the value can make [setHeader] fail on an
    unfinished response. *)
Lemma headersOnly_setHeader (r : Response.t) (name value : string) :
  validHeaderName name = true ->
  spec (headersOnly r) (fun e => Js.code e = Some "ERR_INVALID_CHAR") any
       (setHeader name value).
Proof.
  intros V s (U & Hs & Hb). unfold setHeader. rewrite bind_run. simpl.
  rewrite U, V. simpl. destruct (validHeaderValue value); simpl.
  - split; [repeat split; assumption|]. split; [discriminate | intros; exact Logic.I].
  - split; [repeat split; assumption|]. split; [|discriminate].
    intros e E. inversion E. reflexivity.
Qed.

(** X2. The guard of [setHeaders] is enough to keep Node's invalid
    token error away: on an unfinished response, an error that leaves
    [setHeaders] is the renderer's, raised for the value of an entry
    that is applied, or Node's for a character it refuses in a header
    value.  The response is then still unfinished, with the status and
    the body it had. *)
Theorem setHeaders_raises_no_invalid_token (headers : list HeaderType.t)
    (req : Request.t) (s s' : HState) (e : Js.Error) :
  Response.headersSent (res s) = false ->
  setHeaders headers req s = (s', inl e) ->
  headerError headers req e
  /\ Response.headersSent (res s') = false
  /\ Response.statusCode (res s') = Response.statusCode (res s)
  /\ Response.body (res s') = Response.body (res s).
Proof.
  intros U Run.
  assert (S : spec (headersOnly (res s)) (headerError headers req) any
                (setHeaders headers req)).
  { unfold setHeaders. apply spec_forEach.
    intros [[key|] [value|]] Hin; simpl; try (apply spec_ret; exact Logic.I).
    destruct (_ && _) eqn:Ha; [|apply spec_ret; exact Logic.I].
    apply spec_bind with (R := any).
    - apply spec_call; [|intros; exact Logic.I].
      intros e0 E0. left. exists key, value. repeat split; assumption.
    - intros rendered _.
      apply spec_weaken with (E := fun e => Js.code e = Some "ERR_INVALID_CHAR");
        [intros e0 E0; right; exact E0|].
      unfold res_set.
      destruct (String.eqb _ _); apply headersOnly_setHeader;
        apply (headerIsApplied_validHeaderName key value); exact Ha. }
  destruct (S s) as ((U' & Hs & Hb) & He & _); [repeat split; assumption|].
  rewrite Run in *. simpl in *. split; [apply He; reflexivity|].
  repeat split; assumption.
Qed.

End HeaderErrors.

(** ** [sendError] *)

Lemma getRes_run (s : HState) : getRes s = (s, inr (res s)).
Proof. reflexivity. Qed.

Lemma ret_run {A} (a : A) (s : HState) : (mret a : M A) s = (s, inr a).
Proof. reflexivity. Qed.

Ltac run_step :=
  first [rewrite bind_run | rewrite ret_run | rewrite getRes_run]; cbv beta iota.

(** The text type as Express writes it. *)
Definition plainText : string := "text/plain; charset=utf-8".

(** What Express does with the text type: [res.set] appends the
    default charset to the bare type and leaves the result alone, and
    so does the charset reflection of [res.send]. *)
Definition expressPlainText `{Platform} : Prop :=
  withDefaultCharset "text/plain" = plainText
  /\ withDefaultCharset plainText = plainText
  /\ setCharset plainText = Some plainText.

(** The state after an error text was sent: the status is kept. *)
Definition errorSent (errorMessage : string) (withAlert : bool) (s : HState)
  : HState :=
  {| res := {| Response.statusCode := Response.statusCode (res s);
               Response.headers :=
                 <["content-type" := plainText]> (Response.headers (res s));
               Response.body := Some (BString errorMessage);
               Response.headersSent := true |};
     alerts := if withAlert then alerts s ++ [("error", errorMessage)]
               else alerts s |}.

Section SendError.
Context `{Settings}.

Lemma setHeader_run (name value : string) (s : HState) :
  unsent s -> validHeaderName name = true -> validHeaderValue value = true ->
  setHeader name value s
  = ({| res := {| Response.statusCode := Response.statusCode (res s);
                  Response.headers :=
                    <[Js.toLowerCase name := value]> (Response.headers (res s));
                  Response.body := Response.body (res s);
                  Response.headersSent := false |};
        alerts := alerts s |}, inr tt).
Proof.
  unfold unsent. intros U V W. unfold setHeader. rewrite bind_run. simpl.
  rewrite U, V, W. reflexivity.
Qed.

Lemma setHeader_sent (name value : string) (s : HState) :
  Response.headersSent (res s) = true ->
  setHeader name value s = (s, inl headersSentError).
Proof.
  intros U. unfold setHeader. rewrite bind_run. simpl. rewrite U. reflexivity.
Qed.

Lemma res_end_run (chunk : option Body) (s : HState) :
  unsent s ->
  res_end chunk s
  = ({| res := {| Response.statusCode := Response.statusCode (res s);
                  Response.headers := Response.headers (res s);
                  Response.body := chunk;
                  Response.headersSent := true |};
        alerts := alerts s |}, inr tt).
Proof.
  unfold unsent. intros U. unfold res_end. rewrite bind_run. simpl. rewrite U.
  reflexivity.
Qed.

Lemma res_end_sent (chunk : option Body) (s : HState) :
  Response.headersSent (res s) = true -> res_end chunk s = (s, inr tt).
Proof.
  intros U. unfold res_end. rewrite bind_run. simpl. rewrite U. reflexivity.
Qed.

Lemma res_set_content_type (value : string) :
  res_set "Content-Type" value = setHeader "Content-Type" (withDefaultCharset value).
Proof. reflexivity. Qed.

(** [res.send] of a text on a response that has a content type: the
    charset is reflected into the type and the text is the body. *)
Lemma res_send_text_run (text type type' : string) (s : HState) :
  unsent s ->
  Response.get "Content-Type" (res s) = Some type ->
  Js.truthy type = true ->
  setCharset type = Some type' ->
  validHeaderValue (withDefaultCharset type') = true ->
  res_send (BString text) s
  = ({| res := {| Response.statusCode := Response.statusCode (res s);
                  Response.headers :=
                    <["content-type" := withDefaultCharset type']>
                      (Response.headers (res s));
                  Response.body := Some (BString text);
                  Response.headersSent := true |};
        alerts := alerts s |}, inr tt).
Proof.
  intros U G T C V. unfold res_send. rewrite bind_run, getRes_run.
  rewrite G. cbn [Js.truthyOpt]. rewrite T. cbn [negb when].
  repeat run_step.
  rewrite G, C, res_set_content_type, (setHeader_run "Content-Type" _ s U eq_refl V).
  rewrite res_end_run by reflexivity. reflexivity.
Qed.

Lemma sendError_run (errorMessage : string) (withAlert : bool) (s : HState) :
  expressPlainText -> unsent s ->
  sendError errorMessage withAlert s = (errorSent errorMessage withAlert s, inr tt).
Proof.
  intros (P1 & P2 & P3) U. unfold sendError. rewrite bind_run.
  set (s0 := {| res := res s;
                alerts := if withAlert then alerts s ++ [("error", errorMessage)]
                          else alerts s |}).
  assert (E0 : when withAlert (showAlert "error" errorMessage) s = (s0, inr tt)).
  { unfold s0. destruct withAlert; [reflexivity|]. destruct s. reflexivity. }
  rewrite E0, bind_run, res_set_content_type, P1.
  rewrite (setHeader_run "Content-Type" plainText s0 U eq_refl eq_refl).
  rewrite (res_send_text_run errorMessage plainText plainText);
    [ | reflexivity | apply lookup_insert_eq | reflexivity | exact P3
      | rewrite P2; reflexivity ].
  unfold errorSent. simpl. rewrite P2, insert_insert_eq. reflexivity.
Qed.


(** X4. [sendError] shows the alert before it touches the response:
    asked for, the alert is shown exactly once whether or not the text
    can be sent, and never otherwise.  On a response that is already
    finished nothing is sent: the header write is refused and the
    response stays as it was. *)
Theorem sendError_alert_comes_first (errorMessage : string) (s : HState) :
  alerts (fst (sendError errorMessage true s))
  = alerts s ++ [("error", errorMessage)]
  /\ alerts (fst (sendError errorMessage false s)) = alerts s
  /\ (Response.headersSent (res s) = true ->
      forall withAlert,
        snd (sendError errorMessage withAlert s) = inl headersSentError
        /\ res (fst (sendError errorMessage withAlert s)) = res s).
Proof.
  assert (K : forall shown s0,
            alerts s0 = shown ->
            alerts (fst ((res_set "Content-Type" "text/plain" ;;
                          res_send (BString errorMessage)) s0)) = shown).
  { intros shown s0 E0.
    assert (S : keeps (alertsAre shown)
                  (res_set "Content-Type" "text/plain" ;;
                   res_send (BString errorMessage))).
    { apply keeps_bind;
        [apply keeps_res_set, alertsAre_setHeader|]. intros _.
      apply keeps_res_send; [apply alertsAre_setHeader | apply alertsAre_res_end]. }
    apply (S s0 E0). }
  split; [|split].
  - unfold sendError. rewrite bind_run. cbn [when].
    change (showAlert "error" errorMessage s)
      with ({| res := res s; alerts := alerts s ++ [("error", errorMessage)] |},
            @inr Js.Error unit tt).
    cbv beta iota. apply K. reflexivity.
  - unfold sendError. rewrite bind_run. cbn [when].
    rewrite ret_run. apply K. reflexivity.
  - intros U withAlert. unfold sendError. rewrite bind_run.
    set (s0 := {| res := res s;
                  alerts := if withAlert then alerts s ++ [("error", errorMessage)]
                            else alerts s |}).
    assert (E0 : when withAlert (showAlert "error" errorMessage) s = (s0, inr tt)).
    { unfold s0. destruct withAlert; [reflexivity|]. destruct s. reflexivity. }
    rewrite E0, bind_run, res_set_content_type, (setHeader_sent "Content-Type" _ s0 U).
    split; reflexivity.
Qed.

End SendError.

(** ** Error answers of the body resolution *)

(** The response ended without a body. *)
Definition ended (s : HState) : HState :=
  {| res := {| Response.statusCode := Response.statusCode (res s);
               Response.headers := Response.headers (res s);
               Response.body := None;
               Response.headersSent := true |};
     alerts := alerts s |}.

(** The response with [value] written as its content type. *)
Definition withType (value : string) (s : HState) : HState :=
  {| res := {| Response.statusCode := Response.statusCode (res s);
               Response.headers :=
                 <["content-type" := value]> (Response.headers (res s));
               Response.body := Response.body (res s);
               Response.headersSent := false |};
     alerts := alerts s |}.

(** The response once the file branch has written the detected type,
    which it does when the route has no content type of its own. *)
Definition withDetectedType `{Platform} (routeContentType : string)
    (route : RouteType.t) (s : HState) : HState :=
  if Js.truthy routeContentType then s
  else withType (withDefaultCharset
                   (Js.stringOrFalse (mimeTypes_lookup (RouteType.filePath route)))) s.

(** Node accepts the detected type as a header value. *)
Definition detectedTypeAccepted `{Platform} (routeContentType : string)
    (route : RouteType.t) : Prop :=
  Js.truthy routeContentType = false ->
  validHeaderValue
    (withDefaultCharset
       (Js.stringOrFalse (mimeTypes_lookup (RouteType.filePath route)))) = true.

(** [q] occurs in [s]. *)
Definition hasChar (q : ascii) (s : string) : bool :=
  existsb (Ascii.eqb q) (list_ascii_of_string s).

Section ErrorAnswers.
Context `{Settings}.

Lemma errorSent_withType (errorMessage : string) (withAlert : bool) (value : string)
    (s : HState) :
  errorSent errorMessage withAlert (withType value s)
  = errorSent errorMessage withAlert s.
Proof. unfold errorSent, withType. simpl. rewrite insert_insert_eq. reflexivity. Qed.

Lemma errorSent_withDetectedType (errorMessage : string) (withAlert : bool)
    (routeContentType : string) (route : RouteType.t) (s : HState) :
  errorSent errorMessage withAlert (withDetectedType routeContentType route s)
  = errorSent errorMessage withAlert s.
Proof.
  unfold withDetectedType. destruct (Js.truthy _);
    [reflexivity | apply errorSent_withType].
Qed.

Lemma unsent_withDetectedType (routeContentType : string) (route : RouteType.t)
    (s : HState) :
  unsent s -> unsent (withDetectedType routeContentType route s).
Proof.
  unfold withDetectedType. destruct (Js.truthy _); [trivial | reflexivity].
Qed.

(** The first statement of the [try] block of the file branch. *)
Lemma detectedType_run (routeContentType : string) (route : RouteType.t)
    (s : HState) :
  unsent s -> detectedTypeAccepted routeContentType route ->
  when (negb (Js.truthy routeContentType))
       (res_set "Content-Type"
          (Js.stringOrFalse (mimeTypes_lookup (RouteType.filePath route)))) s
  = (withDetectedType routeContentType route s, inr tt).
Proof.
  intros U A. unfold withDetectedType, detectedTypeAccepted in *.
  destruct (Js.truthy routeContentType); [reflexivity|]. cbn [negb when].
  rewrite res_set_content_type.
  apply (setHeader_run "Content-Type" _ s U eq_refl (A eq_refl)).
Qed.

Lemma serveFile_read_error (routeContentType : string) (route : RouteType.t)
    (req : Request.t) (filePath : string) (error : Js.Error) (s : HState) :
  unsent s -> detectedTypeAccepted routeContentType route ->
  readFileSync filePath = inl error ->
  serveFile routeContentType route req filePath s
  = (withDetectedType routeContentType route s, inl error).
Proof.
  intros U A R. unfold serveFile.
  rewrite bind_run, (detectedType_run _ _ _ U A), bind_run.
  unfold call at 1. rewrite R. reflexivity.
Qed.

Lemma serveFile_render_error (routeContentType : string) (route : RouteType.t)
    (req : Request.t) (filePath fileContent : string) (error : Js.Error)
    (s : HState) :
  unsent s -> detectedTypeAccepted routeContentType route ->
  readFileSync filePath = inr fileContent ->
  hasTemplating (mimeTypes_lookup (RouteType.filePath route)) = true ->
  DummyJSONParser fileContent req = inl error ->
  serveFile routeContentType route req filePath s
  = (withDetectedType routeContentType route s, inl error).
Proof.
  intros U A R T D. unfold serveFile.
  rewrite bind_run, (detectedType_run _ _ _ U A), bind_run.
  unfold call at 1. rewrite R, T, !bind_run. unfold call at 1. rewrite D.
  reflexivity.
Qed.

Lemma fileCatch_missing (filePath : option string) (error : Js.Error) (s : HState) :
  expressPlainText -> unsent s -> Js.code error = Some "ENOENT" ->
  fileCatch filePath error s
  = (errorSent (FILE_NOT_EXISTS Errors +:+ default "undefined" filePath) false s,
     inr tt).
Proof.
  intros P U C. unfold fileCatch.
  rewrite bind_run, (bool_decide_eq_true_2 _ C), (sendError_run _ _ _ P U).
  apply res_end_sent. reflexivity.
Qed.

Lemma fileCatch_parse (filePath : option string) (error : Js.Error) (s : HState) :
  expressPlainText -> unsent s ->
  Js.code error <> Some "ENOENT" ->
  Js.includes "Parse error" (Js.message error) = true ->
  fileCatch filePath error s = (errorSent (TEMPLATE_PARSE Errors) false s, inr tt).
Proof.
  intros P U C I. unfold fileCatch.
  rewrite bind_run, (bool_decide_eq_false_2 _ C), I, (sendError_run _ _ _ P U).
  apply res_end_sent. reflexivity.
Qed.

Lemma fileCatch_other (filePath : option string) (error : Js.Error) (s : HState) :
  unsent s -> unclassified error -> fileCatch filePath error s = (ended s, inr tt).
Proof.
  intros U C. rewrite (fileCatch_unclassified _ _ _ C). apply res_end_run, U.
Qed.

(** The [try] and [catch] of the file branch on a rendered path. *)
Lemma resolveBody_file (routeContentType : string) (route : RouteType.t)
    (req : Request.t) (filePath : string) (s : HState) :
  Js.truthy (RouteType.filePath route) = true ->
  DummyJSONParser (RouteType.filePath route) req = inr filePath ->
  resolveBody routeContentType route req s
  = tryCatch (serveFile routeContentType route req filePath)
             (fileCatch (Some filePath)) s.
Proof. intros T D. unfold resolveBody. rewrite T, D. reflexivity. Qed.

(** X5. A file route whose file does not exist answers with the text
    [FILE_NOT_EXISTS] followed by the rendered path, as plain text,
    under the status code already set for the route.  No alert is
    shown, and a content type written for the file is replaced by the
    text type. *)
Theorem missing_file_is_answered_in_plain_text (routeContentType : string)
    (route : RouteType.t) (req : Request.t) (filePath : string)
    (error : Js.Error) (s : HState) :
  expressPlainText ->
  Response.headersSent (res s) = false ->
  Js.truthy (RouteType.filePath route) = true ->
  DummyJSONParser (RouteType.filePath route) req = inr filePath ->
  detectedTypeAccepted routeContentType route ->
  readFileSync filePath = inl error ->
  Js.code error = Some "ENOENT" ->
  resolveBody routeContentType route req s
  = (errorSent (FILE_NOT_EXISTS Errors +:+ filePath) false s, inr tt)
  /\ alerts (errorSent (FILE_NOT_EXISTS Errors +:+ filePath) false s) = alerts s.
Proof.
  intros P U T D A R C. split; [|reflexivity].
  rewrite (resolveBody_file _ _ _ _ _ T D). unfold tryCatch.
  rewrite (serveFile_read_error _ _ _ _ _ _ U A R).
  rewrite (fileCatch_missing _ _ _ P (unsent_withDetectedType _ _ _ U) C).
  rewrite errorSent_withDetectedType. reflexivity.
Qed.

(** X6. A parse error of the renderer in a file route, be it in the
    template of the path or in the content of a file whose type is
    rendered, is answered with the text [TEMPLATE_PARSE] as plain text
    under the status of the route; no alert is shown. *)
Theorem file_template_error_is_answered_in_plain_text (routeContentType : string)
    (route : RouteType.t) (req : Request.t) (error : Js.Error) (s : HState) :
  expressPlainText ->
  Response.headersSent (res s) = false ->
  Js.truthy (RouteType.filePath route) = true ->
  Js.code error <> Some "ENOENT" ->
  Js.includes "Parse error" (Js.message error) = true ->
  (DummyJSONParser (RouteType.filePath route) req = inl error ->
   resolveBody routeContentType route req s
   = (errorSent (TEMPLATE_PARSE Errors) false s, inr tt))
  /\ (forall filePath fileContent,
        DummyJSONParser (RouteType.filePath route) req = inr filePath ->
        detectedTypeAccepted routeContentType route ->
        readFileSync filePath = inr fileContent ->
        hasTemplating (mimeTypes_lookup (RouteType.filePath route)) = true ->
        DummyJSONParser fileContent req = inl error ->
        resolveBody routeContentType route req s
        = (errorSent (TEMPLATE_PARSE Errors) false s, inr tt)).
Proof.
  intros P U T C I. split.
  - intros D. unfold resolveBody. rewrite T, D.
    apply fileCatch_parse; assumption.
  - intros filePath fileContent D A R Ht Dc.
    rewrite (resolveBody_file _ _ _ _ _ T D). unfold tryCatch.
    rewrite (serveFile_render_error _ _ _ _ _ _ _ U A R Ht Dc).
    rewrite (fileCatch_parse _ _ _ P (unsent_withDetectedType _ _ _ U) C I).
    rewrite errorSent_withDetectedType. reflexivity.
Qed.

(** X7. A file that cannot be read for another reason than its
    absence (a directory, a file without permission), or a content
    whose rendering fails with another error than a parse error (a
    missing helper), ends the response without a body and without a
    message: the status of the route goes out with an empty body, and
    no alert is shown. *)
Theorem unreadable_file_ends_empty (routeContentType : string)
    (route : RouteType.t) (req : Request.t) (filePath : string)
    (error : Js.Error) (s : HState) :
  Response.headersSent (res s) = false ->
  Js.truthy (RouteType.filePath route) = true ->
  DummyJSONParser (RouteType.filePath route) req = inr filePath ->
  detectedTypeAccepted routeContentType route ->
  Js.code error <> Some "ENOENT" ->
  Js.includes "Parse error" (Js.message error) = false ->
  (readFileSync filePath = inl error
   \/ exists fileContent,
        readFileSync filePath = inr fileContent
        /\ hasTemplating (mimeTypes_lookup (RouteType.filePath route)) = true
        /\ DummyJSONParser fileContent req = inl error) ->
  resolveBody routeContentType route req s
  = (ended (withDetectedType routeContentType route s), inr tt)
  /\ Response.body (res (ended (withDetectedType routeContentType route s))) = None
  /\ alerts (ended (withDetectedType routeContentType route s)) = alerts s
  /\ Response.statusCode (res (ended (withDetectedType routeContentType route s)))
     = Response.statusCode (res s).
Proof.
  intros U T D A C I Hfail.
  assert (Run : serveFile routeContentType route req filePath s
                = (withDetectedType routeContentType route s, inl error)).
  { destruct Hfail as [R|(fileContent & R & Ht & Dc)].
    - apply serveFile_read_error; assumption.
    - apply (serveFile_render_error _ _ _ _ fileContent); assumption. }
  split.
  - rewrite (resolveBody_file _ _ _ _ _ T D). unfold tryCatch. rewrite Run.
    apply fileCatch_other; [apply unsent_withDetectedType, U | split; assumption].
  - unfold withDetectedType. destruct (Js.truthy routeContentType); repeat split.
Qed.

(** X8. A body that is not sent as JSON, on a response whose content
    type Express cannot parse: [res.send] throws "invalid media type",
    and the handler answers with the text [INVALID_CONTENT_TYPE] as
    plain text, the refused type replaced, and shows the alert. *)
Theorem invalid_content_type_is_reported (routeContentType : string)
    (route : RouteType.t) (req : Request.t) (rendered type : string) (s : HState) :
  expressPlainText ->
  Response.headersSent (res s) = false ->
  Js.truthy (RouteType.filePath route) = false ->
  String.eqb routeContentType "application/json" = false ->
  DummyJSONParser (RouteType.body route) req = inr rendered ->
  Response.get "Content-Type" (res s) = Some type ->
  Js.truthy type = true ->
  setCharset type = None ->
  resolveBody routeContentType route req s
  = (errorSent (INVALID_CONTENT_TYPE Errors) true s, inr tt)
  /\ alerts (errorSent (INVALID_CONTENT_TYPE Errors) true s)
     = alerts s ++ [("error", INVALID_CONTENT_TYPE Errors)].
Proof.
  intros P U T J D G Tt C. split; [|reflexivity].
  unfold resolveBody. rewrite T, J. unfold tryCatch.
  rewrite bind_run. unfold call at 1. rewrite D.
  assert (Send : res_send (BString rendered) s
                 = (s, inl (Js.mkError None "invalid media type"))).
  { unfold res_send. rewrite bind_run, getRes_run.
    rewrite G. cbn [Js.truthyOpt]. rewrite Tt. cbn [negb when].
    repeat run_step. rewrite G, C. reflexivity. }
  rewrite Send. unfold bodyCatch. rewrite bind_run.
  change (Js.includes "invalid media type"
            (Js.message (Js.mkError None "invalid media type"))) with true.
  cbv iota. rewrite (sendError_run _ _ _ P U). apply res_end_sent. reflexivity.
Qed.

(** X9. A body template that fails to render, in a route that is not
    sent as JSON: unless the message of the error holds "invalid media
    type", the handler sends no message and shows no alert; the
    response ends without a body under the status of the route. *)
Theorem body_template_error_is_silent (routeContentType : string)
    (route : RouteType.t) (req : Request.t) (error : Js.Error) (s : HState) :
  Response.headersSent (res s) = false ->
  Js.truthy (RouteType.filePath route) = false ->
  String.eqb routeContentType "application/json" = false ->
  DummyJSONParser (RouteType.body route) req = inl error ->
  Js.includes "invalid media type" (Js.message error) = false ->
  resolveBody routeContentType route req s = (ended s, inr tt).
Proof.
  intros U T J D I. unfold resolveBody. rewrite T, J. unfold tryCatch.
  rewrite bind_run. unfold call at 1. rewrite D.
  unfold bodyCatch. rewrite I, bind_run, ret_run. apply res_end_run, U.
Qed.

(** *** The helper named in the message *)

Lemma split_String_sep (q : ascii) (r : string) :
  Js.split q (String q r) = EmptyString :: Js.split q r.
Proof. cbn [Js.split]. rewrite Ascii.eqb_refl. reflexivity. Qed.

(** Up to the first separator, [split] yields the prefix. *)
Lemma split_prefix (q : ascii) (a r : string) :
  hasChar q a = false ->
  Js.split q (a +:+ String q r) = a :: Js.split q r.
Proof.
  induction a as [|c a IH]; intros N.
  - apply split_String_sep.
  - unfold hasChar in N. cbn [list_ascii_of_string existsb] in N.
    apply orb_false_elim in N as [Nc Na].
    rewrite append_String. cbn [Js.split].
    rewrite Ascii.eqb_sym, Nc, (IH Na). reflexivity.
Qed.

(** The second piece of a message split at the double quote is what
    stands between the first two quotes. *)
Lemma split_quoted (q : ascii) (pre name post : string) :
  hasChar q pre = false -> hasChar q name = false ->
  nth 1 (Js.split q (pre +:+ String q (name +:+ String q post))) "undefined" = name.
Proof.
  intros Np Nn. rewrite (split_prefix _ _ _ Np), (split_prefix _ _ _ Nn).
  reflexivity.
Qed.

(** X10. A JSON body whose template fails to render is reported: a
    parse error of the renderer with the text [JSON_PARSE], a missing
    helper with [MISSING_HELPER] followed by the name the message
    quotes.  Both go out as plain text under the status of the route,
    and both show the alert. *)
Theorem json_template_error_is_reported (route : RouteType.t) (req : Request.t)
    (error : Js.Error) (s : HState) :
  expressPlainText ->
  Response.headersSent (res s) = false ->
  Js.truthy (RouteType.filePath route) = false ->
  DummyJSONParser (RouteType.body route) req = inl error ->
  (Js.includes "Parse error" (Js.message error) = true ->
   resolveBody "application/json" route req s
   = (errorSent (JSON_PARSE Errors) true s, inr tt))
  /\ (forall pre name post,
        Js.message error = pre +:+ Js.dquote +:+ name +:+ Js.dquote +:+ post ->
        hasChar (ascii_of_nat 34) pre = false ->
        hasChar (ascii_of_nat 34) name = false ->
        Js.includes "Unexpected token" (Js.message error) = false ->
        Js.includes "Parse error" (Js.message error) = false ->
        Js.includes "Missing helper" (Js.message error) = true ->
        resolveBody "application/json" route req s
        = (errorSent (MISSING_HELPER Errors +:+ name) true s, inr tt)).
Proof.
  intros P U T D.
  assert (Run : resolveBody "application/json" route req s = jsonCatch error s).
  { unfold resolveBody. rewrite T, String.eqb_refl. unfold tryCatch.
    rewrite bind_run. unfold call at 1. rewrite D. reflexivity. }
  rewrite Run. unfold jsonCatch. split.
  - intros I. rewrite I, orb_true_r, bind_run, (sendError_run _ _ _ P U).
    apply res_end_sent. reflexivity.
  - intros pre name post Em Np Nn I1 I2 I3.
    rewrite I1, I2, I3. cbn [orb]. rewrite Em.
    change (pre +:+ Js.dquote +:+ name +:+ Js.dquote +:+ post)
      with (pre +:+ String (ascii_of_nat 34) (name +:+ String (ascii_of_nat 34) post)).
    rewrite (split_quoted _ _ _ _ Np Nn), bind_run, (sendError_run _ _ _ P U).
    apply res_end_sent. reflexivity.
Qed.

End ErrorAnswers.

(** ** Dispatch *)

(** The route is registered, and its layer takes the request. *)
Definition routeAnswers `{Settings} (environment : EnvironmentType.t)
    (route : RouteType.t) (req : Request.t) : bool :=
  match RouteType.duplicates route, pathToRegexp (routePath environment route) with
  | [], inr matcher =>
      handlesMethod (RouteType.method route) (Request.method req)
      && matcher (Request.path req)
  | _, _ => false
  end.

(** The layers [setCors] and [enableProxy] add. *)
Definition corsLayer (environment : EnvironmentType.t) : list Layer :=
  if EnvironmentType.cors environment then [LCors environment] else [].

Definition proxyLayer `{Settings} (environment : EnvironmentType.t) : list Layer :=
  if EnvironmentType.proxyMode environment
     && Js.truthy (EnvironmentType.proxyHost environment)
     && isValidURL (EnvironmentType.proxyHost environment)
  then [LProxy (EnvironmentType.proxyHost environment)]
  else [].

(** The request as the proxy forwards it. *)
Definition proxiedRequest (req : Request.t) : Request.t :=
  {| Request.method := Request.method req;
     Request.path := Request.path req;
     Request.headers := Request.headers req;
     Request.body := Request.body req;
     Request.proxied := true |}.

(** The service once the logging middleware has seen the request. *)
Definition logged `{Settings} (environment : EnvironmentType.t) (req : Request.t)
    (svc : Service) : Service :=
  withLogs svc (logRequest environment (throughMiddlewares req) (environmentsLogs svc)).

(** The state a handler starts from. *)
Definition handlerStart `{Settings} (svc : Service) : HState :=
  {| res := initialResponse; alerts := shownAlerts svc |}.

Section Dispatch.
Context `{Settings}.

(** The application, in the order of registration. *)
Lemma buildApp_order environment shown :
  fst (buildApp environment shown)
  = ((map LMiddleware ExpressMiddlewares ++ [LLogRequests environment])
     ++ [LEnvironmentLatency (EnvironmentType.uuid environment)])
    ++ (flat_map (routeLayer environment) (EnvironmentType.routes environment)
        ++ (corsLayer environment ++ proxyLayer environment)).
Proof.
  rewrite buildApp_layers. unfold enableProxy, setCors, corsLayer, proxyLayer.
  destruct (EnvironmentType.cors environment); destruct (_ && _);
    rewrite <- ?app_assoc, ?app_nil_r; reflexivity.
Qed.

Lemma handle_middlewares (middlewares : list (Request.t -> Request.t))
    (rest : list Layer) (req : Request.t) (svc : Service) :
  handle (map LMiddleware middlewares ++ rest) req svc
  = handle rest (fold_left (fun r f => f r) middlewares req) svc.
Proof.
  revert req. induction middlewares as [|f fs IH]; intros req; [reflexivity|].
  cbn [map app handle fold_left]. apply IH.
Qed.

(** Through the middlewares, the log and the latency layer. *)
Lemma handle_entry environment rest req svc selected :
  storeEnvironments svc !! EnvironmentType.uuid environment = Some selected ->
  handle (((map LMiddleware ExpressMiddlewares ++ [LLogRequests environment])
           ++ [LEnvironmentLatency (EnvironmentType.uuid environment)]) ++ rest)
         req svc
  = handle rest (throughMiddlewares req) (logged environment req svc).
Proof.
  intros Hs. rewrite <- !app_assoc, handle_middlewares. simpl.
  rewrite Hs. reflexivity.
Qed.

(** Routes that do not answer are passed. *)
Lemma handle_routes_pass environment routes rest req svc :
  (forall route, In route routes -> routeAnswers environment route req = false) ->
  handle (flat_map (routeLayer environment) routes ++ rest) req svc
  = handle rest req svc.
Proof.
  induction routes as [|route routes IH]; intros Hn; [reflexivity|].
  cbn [flat_map]. rewrite <- app_assoc.
  assert (Hr := Hn route (or_introl eq_refl)).
  assert (IH' := IH (fun r Hin => Hn r (or_intror Hin))).
  unfold routeLayer, routeAnswers in *.
  destruct (RouteType.duplicates route); [|exact IH'].
  destruct (pathToRegexp _) as [e|matcher]; [exact IH'|].
  change ([?layer] ++ ?layers) with (layer :: layers). cbn [handle].
  rewrite Hr. exact IH'.
Qed.

(** The first route that answers is the one that runs. *)
Lemma handle_routes_first environment pre route post rest req svc :
  (forall other, In other pre -> routeAnswers environment other req = false) ->
  routeAnswers environment route req = true ->
  handle (flat_map (routeLayer environment) (pre ++ route :: post) ++ rest) req svc
  = (withAlerts svc
       (alerts (fst (routeHandler environment route req (handlerStart svc)))),
     ByRoute route (routeHandler environment route req (handlerStart svc))).
Proof.
  intros Hpre Hr. rewrite flat_map_app, <- app_assoc.
  rewrite (handle_routes_pass _ _ _ _ _ Hpre).
  cbn [flat_map]. unfold routeLayer at 1. unfold routeAnswers in Hr.
  destruct (RouteType.duplicates route); [|discriminate].
  destruct (pathToRegexp _) as [e|matcher]; [discriminate|].
  rewrite <- app_assoc. change ([?layer] ++ ?layers) with (layer :: layers).
  cbn [handle]. rewrite Hr. reflexivity.
Qed.

(** X11. A request to the application [start] builds is answered by
    the first route of the environment, in the order of the list, that
    is registered and takes the request: by its handler, run on a
    fresh response for the request as the middlewares left it.  The
    preflight handler and the proxy, registered after the routes, never
    come before a route, not even for an OPTIONS request. *)
Theorem first_matching_route_answers (environment selected : EnvironmentType.t)
    (shown : list Alert) (pre post : list RouteType.t) (route : RouteType.t)
    (req : Request.t) (svc : Service) :
  storeEnvironments svc !! EnvironmentType.uuid environment = Some selected ->
  EnvironmentType.routes environment = pre ++ route :: post ->
  (forall other, In other pre ->
     routeAnswers environment other (throughMiddlewares req) = false) ->
  routeAnswers environment route (throughMiddlewares req) = true ->
  handle (fst (buildApp environment shown)) req svc
  = (withAlerts (logged environment req svc)
       (alerts (fst (routeHandler environment route (throughMiddlewares req)
                       (handlerStart svc)))),
     ByRoute route
       (routeHandler environment route (throughMiddlewares req) (handlerStart svc))).
Proof.
  intros Hs Hr Hpre Hroute.
  rewrite buildApp_order, (handle_entry _ _ _ _ _ Hs), Hr.
  apply (handle_routes_first _ _ _ _ _ _ (logged environment req svc) Hpre Hroute).
Qed.

(** X12. With CORS enabled, an OPTIONS request that no route takes is
    answered by the preflight handler, with the headers of the
    environment as the store holds it at that moment, not as it was
    when the server started. *)
Theorem preflight_is_answered_after_routes (environment selected : EnvironmentType.t)
    (shown : list Alert) (req : Request.t) (svc : Service) :
  storeEnvironments svc !! EnvironmentType.uuid environment = Some selected ->
  (forall route, In route (EnvironmentType.routes environment) ->
     routeAnswers environment route (throughMiddlewares req) = false) ->
  EnvironmentType.cors environment = true ->
  Request.method (throughMiddlewares req) = OPTIONS ->
  handle (fst (buildApp environment shown)) req svc
  = (withAlerts (logged environment req svc)
       (alerts (fst (corsHandler selected (throughMiddlewares req)
                       (handlerStart svc)))),
     ByCors (corsHandler selected (throughMiddlewares req) (handlerStart svc))).
Proof.
  intros Hs Hn Hc Hm.
  rewrite buildApp_order, (handle_entry _ _ _ _ _ Hs).
  rewrite (handle_routes_pass _ _ _ _ _ Hn).
  unfold corsLayer. rewrite Hc.
  change ([?layer] ++ ?layers) with (layer :: layers). cbn [handle]. rewrite Hm.
  rewrite (bool_decide_eq_true_2 _ eq_refl).
  change (storeEnvironments (logged environment req svc))
    with (storeEnvironments svc).
  rewrite Hs. reflexivity.
Qed.

(** X13. A request that no route takes and that is not a preflight
    request under CORS goes to the proxy when [enableProxy] has
    registered one, marked as proxied, and is left to Express
    otherwise; the service has only logged it. *)
Theorem unmatched_request_is_proxied_or_left (environment selected : EnvironmentType.t)
    (shown : list Alert) (req : Request.t) (svc : Service) :
  storeEnvironments svc !! EnvironmentType.uuid environment = Some selected ->
  (forall route, In route (EnvironmentType.routes environment) ->
     routeAnswers environment route (throughMiddlewares req) = false) ->
  EnvironmentType.cors environment = false
  \/ Request.method (throughMiddlewares req) <> OPTIONS ->
  handle (fst (buildApp environment shown)) req svc
  = (logged environment req svc,
     if EnvironmentType.proxyMode environment
        && Js.truthy (EnvironmentType.proxyHost environment)
        && isValidURL (EnvironmentType.proxyHost environment)
     then ByProxy (proxyForward (EnvironmentType.proxyHost environment)
                     (proxiedRequest (throughMiddlewares req)))
     else Unhandled).
Proof.
  intros Hs Hn Hc.
  rewrite buildApp_order, (handle_entry _ _ _ _ _ Hs).
  rewrite (handle_routes_pass _ _ _ _ _ Hn).
  assert (Hp : forall svc0,
            handle (proxyLayer environment) (throughMiddlewares req) svc0
            = (svc0,
               if EnvironmentType.proxyMode environment
                  && Js.truthy (EnvironmentType.proxyHost environment)
                  && isValidURL (EnvironmentType.proxyHost environment)
               then ByProxy (proxyForward (EnvironmentType.proxyHost environment)
                               (proxiedRequest (throughMiddlewares req)))
               else Unhandled)).
  { intros svc0. unfold proxyLayer. destruct (_ && _); reflexivity. }
  unfold corsLayer. destruct (EnvironmentType.cors environment) eqn:Ec.
  - destruct Hc as [Hc|Hc]; [discriminate|].
    change ([?layer] ++ ?layers) with (layer :: layers). cbn [handle].
    rewrite (bool_decide_eq_false_2 _ Hc). apply Hp.
  - apply Hp.
Qed.

End Dispatch.

(** ** The preflight handler *)

Section Preflight.
Context `{Settings}.



(** The preflight handler shows no alert. *)
Lemma corsHandler_alerts (environmentSelected : EnvironmentType.t)
    (req : Request.t) (s : HState) :
  alerts (fst (corsHandler environmentSelected req s)) = alerts s.
Proof.
  assert (K : keeps (alertsAre (alerts s)) (corsHandler environmentSelected req)).
  { unfold corsHandler.
    apply keeps_bind; [apply keeps_setHeaders, alertsAre_setHeader|]. intros _.
    apply keeps_bind; [apply keeps_setHeaders, alertsAre_setHeader|]. intros _.
    apply keeps_getRes. intros r.
    apply keeps_bind; [apply keeps_when, keeps_res_set, alertsAre_setHeader|].
    intros _. apply keeps_bind.
    - apply spec_of_step. intros s0 I. exact I.
    - intros _. apply keeps_res_send;
        [apply alertsAre_setHeader | apply alertsAre_res_end]. }
  apply (K s). reflexivity.
Qed.


(** X15. Handling a request never starts or stops a server: whatever
    the layers and whatever answers, the instances, the updates posted
    to the store, the environments of the store and the killed
    listeners are as before, and the alerts shown before are still
    there, in front of the new ones. *)
Theorem handling_leaves_the_servers_alone (server : list Layer) (req : Request.t)
    (svc : Service) :
  instances (fst (handle server req svc)) = instances svc
  /\ storeUpdates (fst (handle server req svc)) = storeUpdates svc
  /\ storeEnvironments (fst (handle server req svc)) = storeEnvironments svc
  /\ killed (fst (handle server req svc)) = killed svc
  /\ exists more, shownAlerts (fst (handle server req svc)) = shownAlerts svc ++ more.
Proof.
  assert (Same : instances svc = instances svc
                 /\ storeUpdates svc = storeUpdates svc
                 /\ storeEnvironments svc = storeEnvironments svc
                 /\ killed svc = killed svc
                 /\ exists more, shownAlerts svc = shownAlerts svc ++ more).
  { repeat split. exists []. rewrite app_nil_r. reflexivity. }
  revert req svc Same.
  induction server as [|layer server IH]; intros req svc Same; [exact Same|].
  destruct layer as [f|e|u|m p mt e r|e|t]; cbn [handle].
  - apply IH, Same.
  - apply (IH req (withLogs svc (logRequest e req (environmentsLogs svc)))), Same.
  - destruct (storeEnvironments svc !! u); [apply IH|]; exact Same.
  - destruct (_ && _); [|apply IH, Same].
    cbn [fst]. repeat split. apply (routeHandler_alerts e r req).
  - destruct (bool_decide _); [|apply IH, Same].
    destruct (storeEnvironments svc !! _) as [selected|]; [|exact Same].
    cbn [fst]. repeat split. exists []. rewrite app_nil_r.
    apply (corsHandler_alerts selected req).
  - exact Same.
Qed.

End Preflight.

(** ** Starting and stopping *)

(** The alert [setRoutes] raises for a route, if any. *)
Definition routeAlert `{Settings} (environment : EnvironmentType.t)
    (route : RouteType.t) : list Alert :=
  match RouteType.duplicates route with
  | [] =>
      match pathToRegexp (routePath environment route) with
      | inl error =>
          if Js.includes "Invalid regular expression" (Js.message error)
          then [("error", INVALID_ROUTE_REGEX Errors +:+ RouteType.endpoint route)]
          else []
      | inr _ => []
      end
  | _ :: _ => []
  end.

(** The listener [start] creates for an environment. *)
Definition listenerOf `{Settings} (environment : EnvironmentType.t)
    (shown : list Alert) : ServerInstance :=
  {| app := fst (buildApp environment shown);
     secure := EnvironmentType.https environment;
     listeningPort := EnvironmentType.port environment |}.

Section LifeCycle.
Context `{Settings}.

Lemma setRoute_alerts environment server shown route :
  snd (setRoute environment (server, shown) route)
  = shown ++ routeAlert environment route.
Proof.
  unfold setRoute, routeAlert.
  destruct (RouteType.duplicates route); [|simpl; apply eq_sym, app_nil_r].
  destruct (pathToRegexp _) as [e|matcher]; [|simpl; apply eq_sym, app_nil_r].
  destruct (Js.includes _ _); simpl; [reflexivity | apply eq_sym, app_nil_r].
Qed.

Lemma fold_setRoute_alerts environment routes server shown :
  snd (fold_left (setRoute environment) routes (server, shown))
  = shown ++ flat_map (routeAlert environment) routes.
Proof.
  revert server shown. induction routes as [|route routes IH]; intros server shown.
  - simpl. apply eq_sym, app_nil_r.
  - cbn [fold_left]. pose proof (setRoute_alerts environment server shown route) as E.
    destruct (setRoute environment (server, shown) route) as [server' shown'].
    simpl in E. rewrite IH, E. cbn [flat_map]. rewrite <- app_assoc. reflexivity.
Qed.

(** The alerts [start] has raised once the application is built. *)
Lemma buildApp_alerts environment shown :
  snd (buildApp environment shown)
  = shown ++ flat_map (routeAlert environment) (EnvironmentType.routes environment).
Proof.
  unfold buildApp.
  pose proof (fold_setRoute_alerts environment (EnvironmentType.routes environment)
                (setEnvironmentLatency
                   (logRequests (map LMiddleware ExpressMiddlewares) environment)
                   (EnvironmentType.uuid environment)) shown) as E.
  unfold setRoutes.
  destruct (fold_left _ _ _) as [server shown']. exact E.
Qed.

Lemma start_listening environment svc :
  start Listening environment svc
  = {| environmentsLogs := environmentsLogs svc;
       instances := <[EnvironmentType.uuid environment :=
                        listenerOf environment (shownAlerts svc)]> (instances svc);
       shownAlerts := snd (buildApp environment (shownAlerts svc));
       storeUpdates := storeUpdates svc ++ [UPDATE_ENVIRONMENT_STATUS true false];
       storeEnvironments := storeEnvironments svc;
       killed := killed svc |}.
Proof.
  unfold start, listenerOf.
  destruct (buildApp environment (shownAlerts svc)) as [server shown]. reflexivity.
Qed.

Lemma start_error environment error svc :
  start (ListenError error) environment svc
  = withAlerts svc
      (snd (buildApp environment (shownAlerts svc))
       ++ [("error",
            if bool_decide (Js.code error = Some "EADDRINUSE")
            then PORT_ALREADY_USED Errors
            else if bool_decide (Js.code error = Some "EACCES")
                 then PORT_INVALID Errors
                 else Js.message error)]).
Proof.
  unfold start.
  destruct (buildApp environment (shownAlerts svc)) as [server shown]. reflexivity.
Qed.

(** X16. Once the listener of an environment is bound, requests to
    the environment go through the application that was built, and the
    store is told that it runs.  Stopping it then undoes the start:
    the listener is killed, the instances are those of before without
    the environment (exactly those of before when it was not running),
    the store is told that it stopped, and requests are no longer
    received; the logs are not touched. *)
Theorem start_then_stop_round_trip (environment : EnvironmentType.t) (svc : Service) :
  (forall req,
     receive (EnvironmentType.uuid environment) req (start Listening environment svc)
     = Some (handle (fst (buildApp environment (shownAlerts svc))) req
               (start Listening environment svc)))
  /\ storeUpdates (start Listening environment svc)
     = storeUpdates svc ++ [UPDATE_ENVIRONMENT_STATUS true false]
  /\ (forall other, other <> EnvironmentType.uuid environment ->
        instances (start Listening environment svc) !! other = instances svc !! other)
  /\ instances (stop (EnvironmentType.uuid environment)
                  (start Listening environment svc))
     = delete (EnvironmentType.uuid environment) (instances svc)
  /\ (instances svc !! EnvironmentType.uuid environment = None ->
      instances (stop (EnvironmentType.uuid environment)
                   (start Listening environment svc))
      = instances svc)
  /\ killed (stop (EnvironmentType.uuid environment)
               (start Listening environment svc))
     = killed svc ++ [listenerOf environment (shownAlerts svc)]
  /\ storeUpdates (stop (EnvironmentType.uuid environment)
                     (start Listening environment svc))
     = storeUpdates svc ++ [UPDATE_ENVIRONMENT_STATUS true false;
                            UPDATE_ENVIRONMENT_STATUS false false]
  /\ (forall req,
        receive (EnvironmentType.uuid environment) req
          (stop (EnvironmentType.uuid environment)
             (start Listening environment svc)) = None)
  /\ environmentsLogs (stop (EnvironmentType.uuid environment)
                         (start Listening environment svc))
     = environmentsLogs svc.
Proof.
  rewrite start_listening.
  set (uuid := EnvironmentType.uuid environment).
  set (listener := listenerOf environment (shownAlerts svc)).
  assert (Hl : <[uuid := listener]> (instances svc) !! uuid = Some listener)
    by apply lookup_insert_eq.
  split; [intros req; unfold receive; cbn [instances]; rewrite Hl; reflexivity|].
  split; [reflexivity|].
  split; [intros other Hne; cbn [instances]; apply lookup_insert_ne; congruence|].
  unfold stop, receive. cbn [instances]. rewrite Hl. cbn.
  split; [apply delete_insert_eq|].
  split; [intros Hn; rewrite delete_insert_eq; apply delete_id, Hn|].
  split; [reflexivity|].
  split; [rewrite <- app_assoc; reflexivity|].
  split; [|reflexivity].
  intros req. rewrite lookup_delete_eq. reflexivity.
Qed.

(** X17. A listener that cannot be bound leaves the environment
    stopped: no instance is kept and nothing is posted to the store;
    the logs and the killed listeners are as before.  One alert is
    shown after those of the routes, chosen by the code of the error:
    the port is in use (EADDRINUSE), the port is invalid (EACCES), or
    else the message of the error as it is.  Stopping an environment
    that was not running then changes nothing. *)
Theorem failed_listen_raises_one_alert (environment : EnvironmentType.t)
    (error : Js.Error) (svc : Service) :
  instances (start (ListenError error) environment svc) = instances svc
  /\ storeUpdates (start (ListenError error) environment svc) = storeUpdates svc
  /\ environmentsLogs (start (ListenError error) environment svc)
     = environmentsLogs svc
  /\ killed (start (ListenError error) environment svc) = killed svc
  /\ (exists text,
        shownAlerts (start (ListenError error) environment svc)
        = snd (buildApp environment (shownAlerts svc)) ++ [("error", text)]
        /\ (Js.code error = Some "EADDRINUSE" -> text = PORT_ALREADY_USED Errors)
        /\ (Js.code error = Some "EACCES" -> text = PORT_INVALID Errors)
        /\ (Js.code error <> Some "EADDRINUSE" -> Js.code error <> Some "EACCES" ->
            text = Js.message error))
  /\ (instances svc !! EnvironmentType.uuid environment = None ->
      stop (EnvironmentType.uuid environment)
        (start (ListenError error) environment svc)
      = start (ListenError error) environment svc).
Proof.
  rewrite start_error. repeat (split; [reflexivity|]). split.
  - eexists. split; [reflexivity|].
    destruct (decide (Js.code error = Some "EADDRINUSE")) as [E1|E1].
    + rewrite (bool_decide_eq_true_2 _ E1). repeat split; congruence.
    + rewrite (bool_decide_eq_false_2 _ E1).
      destruct (decide (Js.code error = Some "EACCES")) as [E2|E2].
      * rewrite (bool_decide_eq_true_2 _ E2). repeat split; congruence.
      * rewrite (bool_decide_eq_false_2 _ E2). repeat split; congruence.
  - intros Hn. unfold stop. cbn [instances withAlerts]. rewrite Hn. reflexivity.
Qed.

(** X18. A route without duplicates whose path Express rejects as an
    invalid regular expression is reported once, by an alert with the
    text [INVALID_ROUTE_REGEX] followed by the endpoint of the route
    as it was typed; the alerts shown before stay in front.  The route
    gets no layer, and the loop goes on: every other route whose path
    is accepted is registered. *)
Theorem invalid_route_regex_is_reported (environment : EnvironmentType.t)
    (shown : list Alert) (pre post : list RouteType.t) (route : RouteType.t)
    (error : Js.Error) :
  EnvironmentType.routes environment = pre ++ route :: post ->
  RouteType.duplicates route = [] ->
  pathToRegexp (routePath environment route) = inl error ->
  Js.includes "Invalid regular expression" (Js.message error) = true ->
  (exists before after,
     snd (buildApp environment shown)
     = shown ++ before
       ++ ("error", INVALID_ROUTE_REGEX Errors +:+ RouteType.endpoint route) :: after)
  /\ (forall method path matcher environment',
        ~ In (LRoute method path matcher environment' route)
             (fst (buildApp environment shown)))
  /\ (forall other matcher,
        In other (EnvironmentType.routes environment) ->
        RouteType.duplicates other = [] ->
        pathToRegexp (routePath environment other) = inr matcher ->
        In (LRoute (RouteType.method other) (routePath environment other) matcher
              environment other)
           (fst (buildApp environment shown))).
Proof.
  intros Hr Hd Hp Hi. split; [|split].
  - exists (flat_map (routeAlert environment) pre),
           (flat_map (routeAlert environment) post).
    rewrite buildApp_alerts, Hr, flat_map_app. cbn [flat_map].
    unfold routeAlert at 2. rewrite Hd, Hp, Hi. reflexivity.
  - intros m p mt e Hin. apply buildApp_route_layers in Hin.
    apply routeLayer_inv in Hin as (_ & _ & _ & _ & _ & Hok). congruence.
  - intros other matcher Hin Hdo Hpo. rewrite buildApp_order.
    apply in_or_app. right. apply in_or_app. left.
    apply in_flat_map. exists other. split; [exact Hin|].
    unfold routeLayer. rewrite Hdo, Hpo. left. reflexivity.
Qed.

(** ** The logs of an environment *)

(** X19. Cleared or deleted, the logs of an environment start over:
    the buffer is empty (an empty list after a clear, no entry at all
    after a delete), the logs of the other environments stay, and the
    next request to the environment leaves a buffer of its own entry
    alone, which the logging middleware creates when there is none.
    From a cleared buffer the requests that follow are kept, the
    newest first, up to the capacity. *)
Theorem cleared_logs_start_over (environment : EnvironmentType.t) (svc : Service) :
  environmentsLogs (clearEnvironmentLogs (EnvironmentType.uuid environment) svc)
    !! EnvironmentType.uuid environment = Some []
  /\ environmentsLogs (deleteEnvironmentLogs (EnvironmentType.uuid environment) svc)
       !! EnvironmentType.uuid environment = None
  /\ (forall other, other <> EnvironmentType.uuid environment ->
        environmentsLogs (clearEnvironmentLogs (EnvironmentType.uuid environment) svc)
          !! other = environmentsLogs svc !! other
        /\ environmentsLogs
             (deleteEnvironmentLogs (EnvironmentType.uuid environment) svc)
             !! other = environmentsLogs svc !! other)
  /\ (forall req,
        bufferOf environment
          (logRequest environment req
             (environmentsLogs
                (clearEnvironmentLogs (EnvironmentType.uuid environment) svc)))
        = [formatRequestLog req]
        /\ bufferOf environment
             (logRequest environment req
                (environmentsLogs
                   (deleteEnvironmentLogs (EnvironmentType.uuid environment) svc)))
           = [formatRequestLog req])
  /\ (forall reqs,
        (0 < maxLogsPerEnvironment)%nat ->
        bufferOf environment
          (logAll environment reqs
             (environmentsLogs
                (clearEnvironmentLogs (EnvironmentType.uuid environment) svc)))
        = firstn maxLogsPerEnvironment (rev (map formatRequestLog reqs)))
  /\ instances (clearEnvironmentLogs (EnvironmentType.uuid environment) svc)
     = instances svc
  /\ instances (deleteEnvironmentLogs (EnvironmentType.uuid environment) svc)
     = instances svc.
Proof.
  set (uuid := EnvironmentType.uuid environment).
  assert (Hc : environmentsLogs (clearEnvironmentLogs uuid svc) !! uuid = Some [])
    by apply lookup_insert_eq.
  assert (Hd : environmentsLogs (deleteEnvironmentLogs uuid svc) !! uuid = None)
    by apply lookup_delete_eq.
  assert (Hone : forall req logs,
            bufferOf environment logs = [] ->
            bufferOf environment (logRequest environment req logs)
            = [formatRequestLog req]).
  { intros req logs E. unfold bufferOf at 1. rewrite logRequest_lookup, E. simpl.
    destruct (maxLogsPerEnvironment <=? 0)%nat; reflexivity. }
  split; [exact Hc|]. split; [exact Hd|]. split.
  { intros other Hne. split;
      [apply lookup_insert_ne | apply lookup_delete_ne]; congruence. }
  split.
  { intros req. split; apply Hone; unfold bufferOf; fold uuid;
      [rewrite Hc | rewrite Hd]; reflexivity. }
  split; [|split; reflexivity].
  intros reqs Hpos.
  assert (Eb : bufferOf environment (environmentsLogs (clearEnvironmentLogs uuid svc))
               = []) by (unfold bufferOf; fold uuid; rewrite Hc; reflexivity).
  rewrite bufferOf_logAll; [|exact Hpos|rewrite Eb; simpl; lia].
  rewrite Eb, app_nil_r. reflexivity.
Qed.

(** X20. When an environment is deleted its server is stopped and its
    logs are deleted: afterwards the environment has no instance and
    no logs, and receives no request; the instances and the logs of
    the other environments stay.  A running listener is killed and the
    store is told that it stopped; for an environment that was not
    running only the logs go.  A second deletion changes nothing. *)
Theorem deleted_environment_leaves_nothing (environmentUUID : string)
    (svc : Service) :
  instances (environmentDeleted environmentUUID svc) !! environmentUUID = None
  /\ environmentsLogs (environmentDeleted environmentUUID svc) !! environmentUUID
     = None
  /\ (forall req, receive environmentUUID req (environmentDeleted environmentUUID svc)
                  = None)
  /\ (forall other, other <> environmentUUID ->
        instances (environmentDeleted environmentUUID svc) !! other
        = instances svc !! other
        /\ environmentsLogs (environmentDeleted environmentUUID svc) !! other
           = environmentsLogs svc !! other)
  /\ (forall instance,
        instances svc !! environmentUUID = Some instance ->
        killed (environmentDeleted environmentUUID svc) = killed svc ++ [instance]
        /\ storeUpdates (environmentDeleted environmentUUID svc)
           = storeUpdates svc ++ [UPDATE_ENVIRONMENT_STATUS false false])
  /\ (instances svc !! environmentUUID = None ->
      environmentDeleted environmentUUID svc
      = deleteEnvironmentLogs environmentUUID svc)
  /\ environmentDeleted environmentUUID (environmentDeleted environmentUUID svc)
     = environmentDeleted environmentUUID svc.
Proof.
  unfold environmentDeleted, deleteEnvironmentLogs, stop, receive.
  destruct (instances svc !! environmentUUID) as [instance|] eqn:Ei; cbn.
  - rewrite !lookup_delete_eq. cbn.
    split; [reflexivity|]. split; [reflexivity|]. split; [reflexivity|].
    split; [intros other Hne; split; apply lookup_delete_ne; congruence|].
    split; [intros i E; inversion E; split; reflexivity|].
    split; [discriminate|].
    unfold withLogs. cbn. rewrite delete_delete_eq. reflexivity.
  - rewrite Ei, lookup_delete_eq. cbn. rewrite ?Ei.
    split; [reflexivity|]. split; [reflexivity|]. split; [reflexivity|].
    split; [intros other Hne; split;
              [reflexivity | apply lookup_delete_ne; congruence]|].
    split; [discriminate|]. split; [reflexivity|].
    unfold withLogs. cbn. rewrite delete_delete_eq. reflexivity.
Qed.

End LifeCycle.

(** ** Bodies that are sent *)

(** The state after [text] was sent under the content type [type]. *)
Definition textSent (text type : string) (s : HState) : HState :=
  {| res := {| Response.statusCode := Response.statusCode (res s);
               Response.headers :=
                 <["content-type" := type]> (Response.headers (res s));
               Response.body := Some (BString text);
               Response.headersSent := true |};
     alerts := alerts s |}.

Section SentBodies.
Context `{Settings}.

(** X21. On a response that has a content type Express can parse, an
    inline body that renders is sent as a text under that type with
    the charset reflected into it, and no alert is shown.  A route
    that is not JSON sends the rendering as it is.  A JSON route sends
    what [JSON.stringify] makes of the parsed rendering, not the text
    of the body as it was typed. *)
Theorem inline_body_is_sent_rendered (routeContentType : string)
    (route : RouteType.t) (req : Request.t) (rendered type type' : string)
    (s : HState) :
  Response.headersSent (res s) = false ->
  Js.truthy (RouteType.filePath route) = false ->
  DummyJSONParser (RouteType.body route) req = inr rendered ->
  Response.get "Content-Type" (res s) = Some type ->
  Js.truthy type = true ->
  setCharset type = Some type' ->
  validHeaderValue (withDefaultCharset type') = true ->
  (String.eqb routeContentType "application/json" = false ->
   resolveBody routeContentType route req s
   = (textSent rendered (withDefaultCharset type') s, inr tt))
  /\ (forall value,
        routeContentType = "application/json" ->
        JSON_parse rendered = inr value ->
        resolveBody routeContentType route req s
        = (textSent (JSON_stringify value) (withDefaultCharset type') s, inr tt)).
Proof.
  intros U T D G Tt C V. split.
  - intros J. unfold resolveBody. rewrite T, J. unfold tryCatch.
    rewrite bind_run. unfold call at 1. rewrite D.
    rewrite (res_send_text_run rendered type type' s U G Tt C V). reflexivity.
  - intros value -> P. unfold resolveBody. rewrite T, String.eqb_refl.
    unfold tryCatch. rewrite bind_run. unfold call at 1. rewrite D.
    rewrite bind_run. unfold call at 1. rewrite P.
    unfold res_json. rewrite bind_run, getRes_run, G. cbn [Js.truthyOpt].
    rewrite Tt. cbn [negb when]. repeat run_step.
    rewrite (res_send_text_run (JSON_stringify value) type type' s U G Tt C V).
    reflexivity.
Qed.

End SentBodies.

(** ** Addresses the proxy refuses *)

Section Addresses.

Lemma In_dropWhile (p : ascii -> bool) (c : ascii) (l : list ascii) :
  In c (Url.dropWhile p l) -> In c l.
Proof.
  induction l as [|x l IH]; simpl; [trivial|].
  destruct (p x); [intros Hin; right; apply IH, Hin | trivial].
Qed.

(** The preprocessing of an address only removes characters. *)
Lemma In_preprocess (c : ascii) (input : string) :
  In c (Url.preprocess input) -> In c (list_ascii_of_string input).
Proof.
  unfold Url.preprocess. intros Hin.
  apply filter_In in Hin as [Hin _]. apply in_rev in Hin.
  apply In_dropWhile in Hin. apply in_rev in Hin.
  apply In_dropWhile in Hin. exact Hin.
Qed.

Lemma hasChar_false (q : ascii) (s : string) :
  hasChar q s = false -> ~ In q (list_ascii_of_string s).
Proof.
  unfold hasChar. intros E Hin.
  assert (T : existsb (Ascii.eqb q) (list_ascii_of_string s) = true).
  { apply existsb_exists. exists q. split; [exact Hin | apply Ascii.eqb_refl]. }
  congruence.
Qed.

(** Without a colon the scheme state never ends. *)
Lemma schemeState_no_colon (buffer input : list ascii) :
  ~ In ":"%char input -> Url.schemeState buffer input = None.
Proof.
  revert buffer. induction input as [|c r IH]; intros buffer N; [reflexivity|].
  cbn [Url.schemeState].
  destruct (Url.isSchemeChar c); [apply IH; intros Hin; apply N; right; exact Hin|].
  destruct (Ascii.eqb_spec c ":"%char) as [->|_]; [|reflexivity].
  exfalso. apply N. left. reflexivity.
Qed.

Lemma dropWhile_snoc (p : ascii -> bool) (l : list ascii) (c : ascii) :
  p c = false -> exists l', Url.dropWhile p (l ++ [c]) = l' ++ [c].
Proof.
  intros Hc. induction l as [|x l [l' IH]]; simpl.
  - rewrite Hc. exists []. reflexivity.
  - destruct (p x); [exists l'; exact IH | exists (x :: l); reflexivity].
Qed.

Lemma isTabOrNewline_isC0OrSpace (c : ascii) :
  Url.isTabOrNewline c = true -> Url.isC0OrSpace c = true.
Proof.
  destruct c as [[] [] [] [] [] [] [] []]; vm_compute; intros E;
    first [reflexivity | exact E].
Qed.

(** A first character that is not stripped stays the first. *)
Lemma preprocess_first (c : ascii) (rest : string) :
  Url.isC0OrSpace c = false ->
  exists l, Url.preprocess (String c rest) = c :: l.
Proof.
  intros Hc. unfold Url.preprocess. cbn [list_ascii_of_string Url.dropWhile].
  rewrite Hc. cbn [rev].
  destruct (dropWhile_snoc Url.isC0OrSpace (rev (list_ascii_of_string rest)) c Hc)
    as [l' E].
  rewrite E, rev_app_distr. change (rev [c] ++ rev l') with (c :: rev l').
  cbn [List.filter].
  destruct (Url.isTabOrNewline c) eqn:Et.
  - apply isTabOrNewline_isC0OrSpace in Et. congruence.
  - cbn [negb]. eexists. reflexivity.
Qed.

(** X22. An address without a colon, or one whose first character is
    neither a letter nor stripped as a space or control, has no scheme:
    the URL constructor throws, [isValidURL] answers false, and
    [enableProxy] leaves the application without a proxy whatever the
    proxy mode.  So a proxy host typed as a bare host name or as a
    numeric host with a port is refused. *)
Theorem address_without_scheme_is_refused (address : string) :
  hasChar ":"%char address = false
  \/ (exists c rest,
        address = String c rest
        /\ Url.isAlpha c = false /\ Url.isC0OrSpace c = false) ->
  isValidURL address = false
  /\ (forall server environment,
        EnvironmentType.proxyHost environment = address ->
        enableProxy server environment = server).
Proof.
  intros Hshape.
  assert (Hp : Url.parse address = None).
  { unfold Url.parse. destruct Hshape as [Hn|(c & rest & -> & Ha & Hs)].
    - assert (N : ~ In ":"%char (Url.preprocess address)).
      { intros Hin. apply (hasChar_false _ _ Hn), In_preprocess, Hin. }
      unfold Url.schemeStartState.
      destruct (Url.preprocess address) as [|c r]; [reflexivity|].
      destruct (Url.isAlpha c); [|reflexivity].
      rewrite schemeState_no_colon; [reflexivity|].
      intros Hin. apply N. right. exact Hin.
    - destruct (preprocess_first c rest Hs) as [l ->].
      unfold Url.schemeStartState. rewrite Ha. reflexivity. }
  assert (Hv : isValidURL address = false).
  { unfold isValidURL, Url.construct. rewrite Hp. reflexivity. }
  split; [exact Hv|].
  intros server environment <-. unfold enableProxy.
  rewrite Hv, andb_false_r. reflexivity.
Qed.

End Addresses.

(** * The statements on the sample deployment *)

#[local] Existing Instance Sample.platform.
#[local] Existing Instance Sample.settings.

(** The two routes at /items are inert, the one at /users answers. *)
Example sample_dispatch :
  snd (handle (fst (buildApp Sample.envDuplicates []))
         (Sample.request GET "/items") (Sample.serviceWith Sample.envDuplicates))
  = Unhandled
  /\ exists result,
       snd (handle (fst (buildApp Sample.envDuplicates []))
              (Sample.request GET "/users") (Sample.serviceWith Sample.envDuplicates))
       = ByRoute Sample.routeUsers result
       /\ Response.body (res (fst result)) = Some (BString "[]").
Proof. split; [reflexivity|]. eexists. split; reflexivity. Qed.

Lemma duplicated_route_is_never_registered_witness :
  RouteType.duplicates Sample.routeItemsA <> []
  /\ (forall req svc svc' result,
        handle (fst (buildApp Sample.envDuplicates [])) req svc
        <> (svc', ByRoute Sample.routeItemsA result)).
Proof.
  assert (Hd : RouteType.duplicates Sample.routeItemsA <> []) by discriminate.
  split; [exact Hd|].
  exact (proj1 (proj2 (proj2
    (duplicated_route_is_never_registered Sample.envDuplicates []
       Sample.routeItemsA Hd)))).
Defined.

Lemma log_buffer_never_exceeds_capacity_witness :
  (0 < maxLogsPerEnvironment)%nat
  /\ (length (bufferOf Sample.envOrigin ∅) <= maxLogsPerEnvironment)%nat
  /\ bufferOf Sample.envOrigin
       (logAll Sample.envOrigin
          [Sample.request GET "/1"; Sample.request GET "/2";
           Sample.request GET "/3"; Sample.request GET "/4"] ∅)
     = rev (map formatRequestLog
              [Sample.request GET "/2"; Sample.request GET "/3";
               Sample.request GET "/4"]).
Proof.
  assert (Hpos : (0 < maxLogsPerEnvironment)%nat) by (vm_compute; lia).
  assert (Hlen : (length (bufferOf Sample.envOrigin ∅) <= maxLogsPerEnvironment)%nat)
    by (vm_compute; lia).
  split; [exact Hpos|]. split; [exact Hlen|].
  exact (proj1 (proj2 (proj2 (proj2
    (log_buffer_never_exceeds_capacity Sample.envOrigin ∅ Hpos Hlen)))
    (Sample.request GET "/1")
    [Sample.request GET "/2"; Sample.request GET "/3"; Sample.request GET "/4"]
    eq_refl)).
Defined.


(** On the sample the route value is in the final response. *)
Example sample_route_value :
  Response.get "x-origin"
    (res (fst (routeHandler Sample.envOrigin Sample.routeOrigin
                 (Sample.request GET "/origin") Sample.start0)))
  = Some "route".
Proof. reflexivity. Qed.


Lemma invalid_header_key_is_skipped_witness :
  hasNonTokenChar "X Custom" = true
  /\ setHeaders [HeaderType.mk (Some "X Custom") (Some "{{oops")]
       (Sample.request GET "/origin") Sample.start0
     = (Sample.start0, inr tt)
  /\ Response.get "X Custom"
       (res (fst (routeHandler
                    (Sample.environment EmptyString []
                       [HeaderType.mk (Some "X Custom") (Some "environment")]
                       EmptyString)
                    (Sample.route GET "origin" "ok"
                       [HeaderType.mk (Some "X Custom") (Some "route")]
                       EmptyString [])
                    (Sample.request GET "/origin") Sample.start0)))
     = None.
Proof.
  assert (Hk : hasNonTokenChar "X Custom" = true) by reflexivity.
  split; [exact Hk|].
  pose proof (invalid_header_key_is_skipped "X Custom" (Some "{{oops") [] []
                (Sample.environment EmptyString []
                   [HeaderType.mk (Some "X Custom") (Some "environment")]
                   EmptyString)
                (Sample.route GET "origin" "ok"
                   [HeaderType.mk (Some "X Custom") (Some "route")]
                   EmptyString [])
                (Sample.request GET "/origin") Sample.start0 Hk) as W.
  split; [exact (proj1 W)|].
  exact (proj2 (proj2 (proj2 W) eq_refl)).
Defined.

Lemma header_without_value_is_skipped_witness :
  Js.truthyOpt (HeaderType.value (HeaderType.mk (Some "X-Empty") (Some EmptyString)))
  = false
  /\ setHeaders
       ([Sample.header "X-A" "1"]
        ++ HeaderType.mk (Some "X-Empty") (Some EmptyString)
        :: [Sample.header "X-B" "2"])
       (Sample.request GET "/origin") Sample.start0
     = setHeaders ([Sample.header "X-A" "1"] ++ [Sample.header "X-B" "2"])
         (Sample.request GET "/origin") Sample.start0.
Proof.
  assert (Hv : Js.truthyOpt
                 (HeaderType.value (HeaderType.mk (Some "X-Empty") (Some EmptyString)))
               = false) by reflexivity.
  split; [exact Hv|].
  exact (proj1 (proj2 (proj2
    (header_without_value_is_skipped
       (HeaderType.mk (Some "X-Empty") (Some EmptyString))
       [Sample.header "X-A" "1"] [Sample.header "X-B" "2"]
       (Sample.request GET "/origin") Sample.start0 Hv)))).
Defined.

Lemma json_parse_error_without_token_is_silent_witness :
  Js.truthy (RouteType.filePath Sample.routeEmptyJson) = false
  /\ DummyJSONParser (RouteType.body Sample.routeEmptyJson) (Sample.request GET "/empty")
     = inr EmptyString
  /\ JSON_parse EmptyString = inl (Js.mkError None "Unexpected end of JSON input")
  /\ resolveBody "application/json" Sample.routeEmptyJson
       (Sample.request GET "/empty") Sample.start0
     = ({| res := {| Response.statusCode := 200;
                     Response.headers := Response.headers initialResponse;
                     Response.body := None;
                     Response.headersSent := true |};
           alerts := [] |}, inr tt).
Proof.
  split; [reflexivity|]. split; [reflexivity|]. split; [reflexivity|].
  exact (json_parse_error_without_token_is_silent Sample.routeEmptyJson
           (Sample.request GET "/empty") Sample.start0 EmptyString
           (Js.mkError None "Unexpected end of JSON input")
           eq_refl eq_refl eq_refl eq_refl eq_refl eq_refl eq_refl).
Defined.

(** The whole handler on the JSON route with an empty body: the
    response ends without a body, keeps the JSON content type, and no
    alert is shown; a body that is not a JSON text but names a token
    is reported. *)
Example sample_empty_json_body :
  let final := fst (routeHandler Sample.envOrigin Sample.routeEmptyJson
                      (Sample.request GET "/empty") Sample.start0) in
  Response.body (res final) = None
  /\ Response.headersSent (res final) = true
  /\ Response.get "Content-Type" (res final) = Some "application/json; charset=utf-8"
  /\ alerts final = []
  /\ alerts (fst (routeHandler Sample.envOrigin
                    (Sample.route GET "broken" "{oops"
                       [Sample.header "Content-Type" "application/json"]
                       EmptyString [])
                    (Sample.request GET "/broken") Sample.start0))
     = [("error", JSON_PARSE Errors)].
Proof. repeat split. Qed.


(** Both files of the sample are served: the image as it is, the text
    file through the renderer. *)
Example sample_files :
  Response.body
    (res (fst (routeHandler Sample.envOrigin Sample.routeLogo
                 (Sample.request GET "/logo") Sample.start0)))
  = Some (BBuffer "PNG")
  /\ Response.body
       (res (fst (routeHandler Sample.envOrigin Sample.routeReport
                    (Sample.request GET "/report") Sample.start0)))
     = Some (BString "quarterly report").
Proof. split; reflexivity. Qed.

Lemma route_path_escapes_endpoint_spaces_witness :
  In Sample.routeAllUsers (EnvironmentType.routes Sample.envApi)
  /\ RouteType.duplicates Sample.routeAllUsers = []
  /\ pathToRegexp (routePath Sample.envApi Sample.routeAllUsers)
     = inr (String.eqb "/api/all%20users")
  /\ In (LRoute GET "/api/all%20users" (String.eqb "/api/all%20users")
           Sample.envApi Sample.routeAllUsers)
        (fst (buildApp Sample.envApi [])).
Proof.
  assert (Hin : In Sample.routeAllUsers (EnvironmentType.routes Sample.envApi))
    by (left; reflexivity).
  split; [exact Hin|]. split; [reflexivity|]. split; [reflexivity|].
  exact (proj1
    (route_path_escapes_endpoint_spaces Sample.envApi Sample.routeAllUsers
       (String.eqb "/api/all%20users") Hin eq_refl eq_refl) []).
Defined.

(** C9, refuted as worded: under the prefix "my api" the route is
    registered at a path with a space in it, which is not the path the
    specification describes. *)
Lemma route_path_counterexample :
  routePath Sample.envSpaced Sample.routeAllUsers = "/my api/all%20users"
  /\ hasSpace (routePath Sample.envSpaced Sample.routeAllUsers) = true
  /\ specifiedPath Sample.envSpaced Sample.routeAllUsers = "my%20api/all%20users"
  /\ routePath Sample.envSpaced Sample.routeAllUsers
     <> specifiedPath Sample.envSpaced Sample.routeAllUsers
  /\ In (LRoute GET "/my api/all%20users" (String.eqb "/my api/all%20users")
           Sample.envSpaced Sample.routeAllUsers)
        (fst (buildApp Sample.envSpaced [])).
Proof.
  split; [reflexivity|]. split; [reflexivity|]. split; [reflexivity|].
  split; [discriminate|]. vm_compute. auto 10.
Qed.

(** ** Error answers, dispatch and life cycle on the sample *)

(** A route on a file that does not exist, one on a path template
    that does not parse, one for preflight requests, one whose path
    Express rejects, and the sample environments that hold them. *)
Definition routeMissing : RouteType.t :=
  Sample.route GET "missing" EmptyString [] "data/missing.txt" [].
Definition routeBadPath : RouteType.t :=
  Sample.route GET "bad" EmptyString [] "data/{{name.txt" [].
Definition routeBadBody : RouteType.t :=
  Sample.route GET "broken" "{{oops" [] EmptyString [].
Definition routeHello : RouteType.t :=
  Sample.route GET "hello" "hello world" [] EmptyString [].
Definition routeOptions : RouteType.t :=
  Sample.route OPTIONS "users" "mine" [] EmptyString [].
Definition routeRegex : RouteType.t :=
  Sample.route GET "users/(" "[]" [] EmptyString [].
Definition envOptions : EnvironmentType.t :=
  Sample.environment EmptyString [Sample.routeUsers; routeOptions] [] EmptyString.
Definition envRegex : EnvironmentType.t :=
  Sample.environment EmptyString [routeRegex; Sample.routeUsers] [] EmptyString.
Definition envProxied : EnvironmentType.t :=
  Sample.environment EmptyString [Sample.routeUsers] [] "https://example.com".
Definition envChanged : EnvironmentType.t :=
  Sample.environment EmptyString []
    [Sample.header "Access-Control-Allow-Origin" "https://app.example"] EmptyString.

(** The sample response with the text type set. *)
Definition textTyped : HState := withType plainText Sample.start0.

Lemma sample_expressPlainText : expressPlainText.
Proof. repeat split. Qed.

Lemma setHeaders_raises_no_invalid_token_witness :
  Response.headersSent (res Sample.start0) = false
  /\ setHeaders [Sample.header "X-Id" "{{oops"] (Sample.request GET "/") Sample.start0
     = (Sample.start0, inl (Js.mkError None "Parse error on line 1"))
  /\ headerError [Sample.header "X-Id" "{{oops"] (Sample.request GET "/")
       (Js.mkError None "Parse error on line 1").
Proof.
  assert (U : Response.headersSent (res Sample.start0) = false) by reflexivity.
  assert (Run : setHeaders [Sample.header "X-Id" "{{oops"] (Sample.request GET "/")
                  Sample.start0
                = (Sample.start0, inl (Js.mkError None "Parse error on line 1")))
    by reflexivity.
  split; [exact U|]. split; [exact Run|].
  exact (proj1 (setHeaders_raises_no_invalid_token _ _ _ _ _ U Run)).
Defined.


Lemma missing_file_is_answered_in_plain_text_witness :
  readFileSync "data/missing.txt"
  = inl (Js.mkError (Some "ENOENT")
           "ENOENT: no such file or directory, open 'data/missing.txt'")
  /\ resolveBody EmptyString routeMissing (Sample.request GET "/missing") Sample.start0
     = (errorSent (FILE_NOT_EXISTS Errors +:+ "data/missing.txt") false Sample.start0,
        inr tt).
Proof.
  split; [reflexivity|].
  exact (proj1 (missing_file_is_answered_in_plain_text EmptyString routeMissing
                  (Sample.request GET "/missing") "data/missing.txt"
                  (Js.mkError (Some "ENOENT")
                     "ENOENT: no such file or directory, open 'data/missing.txt'")
                  Sample.start0 sample_expressPlainText eq_refl eq_refl eq_refl
                  (fun _ => eq_refl) eq_refl eq_refl)).
Defined.

Lemma file_template_error_is_answered_in_plain_text_witness :
  DummyJSONParser (RouteType.filePath routeBadPath) (Sample.request GET "/bad")
  = inl (Js.mkError None "Parse error on line 1")
  /\ resolveBody EmptyString routeBadPath (Sample.request GET "/bad") Sample.start0
     = (errorSent (TEMPLATE_PARSE Errors) false Sample.start0, inr tt).
Proof.
  assert (D : DummyJSONParser (RouteType.filePath routeBadPath)
                (Sample.request GET "/bad")
              = inl (Js.mkError None "Parse error on line 1")) by reflexivity.
  split; [exact D|].
  refine (proj1 (file_template_error_is_answered_in_plain_text EmptyString
                   routeBadPath (Sample.request GET "/bad")
                   (Js.mkError None "Parse error on line 1") Sample.start0
                   sample_expressPlainText eq_refl eq_refl _ eq_refl) D).
  discriminate.
Defined.

Lemma body_template_error_is_silent_witness :
  DummyJSONParser (RouteType.body routeBadBody) (Sample.request GET "/broken")
  = inl (Js.mkError None "Parse error on line 1")
  /\ resolveBody EmptyString routeBadBody (Sample.request GET "/broken") Sample.start0
     = (ended Sample.start0, inr tt).
Proof.
  assert (D : DummyJSONParser (RouteType.body routeBadBody)
                (Sample.request GET "/broken")
              = inl (Js.mkError None "Parse error on line 1")) by reflexivity.
  split; [exact D|].
  exact (body_template_error_is_silent EmptyString routeBadBody
           (Sample.request GET "/broken") (Js.mkError None "Parse error on line 1")
           Sample.start0 eq_refl eq_refl eq_refl D eq_refl).
Defined.

Lemma json_template_error_is_reported_witness :
  DummyJSONParser (RouteType.body routeBadBody) (Sample.request GET "/broken")
  = inl (Js.mkError None "Parse error on line 1")
  /\ resolveBody "application/json" routeBadBody (Sample.request GET "/broken")
       Sample.start0
     = (errorSent (JSON_PARSE Errors) true Sample.start0, inr tt).
Proof.
  assert (D : DummyJSONParser (RouteType.body routeBadBody)
                (Sample.request GET "/broken")
              = inl (Js.mkError None "Parse error on line 1")) by reflexivity.
  split; [exact D|].
  exact (proj1 (json_template_error_is_reported routeBadBody
                  (Sample.request GET "/broken")
                  (Js.mkError None "Parse error on line 1") Sample.start0
                  sample_expressPlainText eq_refl eq_refl D) eq_refl).
Defined.

Lemma inline_body_is_sent_rendered_witness :
  Response.get "Content-Type" (res textTyped) = Some plainText
  /\ resolveBody "text/plain" routeHello (Sample.request GET "/hello") textTyped
     = (textSent "hello world" plainText textTyped, inr tt)
  /\ resolveBody "application/json"
       (Sample.route GET "flag" "true" [] EmptyString [])
       (Sample.request GET "/flag") textTyped
     = (textSent "true" plainText textTyped, inr tt).
Proof.
  assert (G : Response.get "Content-Type" (res textTyped) = Some plainText)
    by reflexivity.
  split; [exact G|]. split.
  - exact (proj1 (inline_body_is_sent_rendered "text/plain" routeHello
                    (Sample.request GET "/hello") "hello world" plainText plainText
                    textTyped eq_refl eq_refl eq_refl G eq_refl eq_refl eq_refl)
             eq_refl).
  - exact (proj2 (inline_body_is_sent_rendered "application/json"
                    (Sample.route GET "flag" "true" [] EmptyString [])
                    (Sample.request GET "/flag") "true" plainText plainText
                    textTyped eq_refl eq_refl eq_refl G eq_refl eq_refl eq_refl)
             "true" eq_refl eq_refl).
Defined.

Lemma first_matching_route_answers_witness :
  routeAnswers envOptions Sample.routeUsers
    (throughMiddlewares (Sample.request OPTIONS "/users")) = false
  /\ routeAnswers envOptions routeOptions
       (throughMiddlewares (Sample.request OPTIONS "/users")) = true
  /\ snd (handle (fst (buildApp envOptions [])) (Sample.request OPTIONS "/users")
            (Sample.serviceWith envOptions))
     = ByRoute routeOptions
         (routeHandler envOptions routeOptions
            (throughMiddlewares (Sample.request OPTIONS "/users"))
            (handlerStart (Sample.serviceWith envOptions))).
Proof.
  assert (Hpre : forall other, In other [Sample.routeUsers] ->
            routeAnswers envOptions other
              (throughMiddlewares (Sample.request OPTIONS "/users")) = false).
  { intros other [<-|[]]. reflexivity. }
  split; [reflexivity|]. split; [reflexivity|].
  exact (f_equal snd
           (first_matching_route_answers envOptions envOptions []
              [Sample.routeUsers] [] routeOptions (Sample.request OPTIONS "/users")
              (Sample.serviceWith envOptions) eq_refl eq_refl Hpre eq_refl)).
Defined.

Lemma preflight_is_answered_after_routes_witness :
  storeEnvironments (Sample.serviceWith envChanged)
    !! EnvironmentType.uuid Sample.envOrigin = Some envChanged
  /\ snd (handle (fst (buildApp Sample.envOrigin [])) (Sample.request OPTIONS "/any")
            (Sample.serviceWith envChanged))
     = ByCors (corsHandler envChanged
                 (throughMiddlewares (Sample.request OPTIONS "/any"))
                 (handlerStart (Sample.serviceWith envChanged))).
Proof.
  assert (Hs : storeEnvironments (Sample.serviceWith envChanged)
                 !! EnvironmentType.uuid Sample.envOrigin = Some envChanged)
    by reflexivity.
  split; [exact Hs|].
  refine (f_equal snd
            (preflight_is_answered_after_routes Sample.envOrigin envChanged []
               (Sample.request OPTIONS "/any") (Sample.serviceWith envChanged)
               Hs _ eq_refl eq_refl)).
  intros route [].
Defined.

Lemma unmatched_request_is_proxied_or_left_witness :
  Request.method (throughMiddlewares (Sample.request GET "/nothing")) <> OPTIONS
  /\ snd (handle (fst (buildApp envProxied [])) (Sample.request GET "/nothing")
            (Sample.serviceWith envProxied))
     = ByProxy (proxyForward "https://example.com"
                  (proxiedRequest (throughMiddlewares (Sample.request GET "/nothing")))).
Proof.
  assert (Hm : Request.method (throughMiddlewares (Sample.request GET "/nothing"))
               <> OPTIONS) by discriminate.
  assert (Hn : forall route, In route (EnvironmentType.routes envProxied) ->
            routeAnswers envProxied route
              (throughMiddlewares (Sample.request GET "/nothing")) = false).
  { intros route [<-|[]]. reflexivity. }
  split; [exact Hm|].
  exact (f_equal snd
           (unmatched_request_is_proxied_or_left envProxied envProxied []
              (Sample.request GET "/nothing") (Sample.serviceWith envProxied)
              eq_refl Hn (or_intror Hm))).
Defined.


(** On the sample the origin allowed is the one of the environment,
    the methods allowed are the default ones. *)
Example sample_preflight :
  Response.get "Access-Control-Allow-Origin"
    (res (fst (corsHandler envChanged (Sample.request OPTIONS "/any") Sample.start0)))
  = Some "https://app.example"
  /\ Response.get "Access-Control-Allow-Methods"
       (res (fst (corsHandler envChanged (Sample.request OPTIONS "/any")
                    Sample.start0)))
     = Some "GET,POST,PUT,PATCH,DELETE,HEAD,OPTIONS".
Proof. split; reflexivity. Qed.

Lemma invalid_route_regex_is_reported_witness :
  pathToRegexp (routePath envRegex routeRegex)
  = inl (Js.mkError None "Invalid regular expression: /users/(")
  /\ (exists before after,
        snd (buildApp envRegex [])
        = [] ++ before
          ++ ("error", INVALID_ROUTE_REGEX Errors +:+ "users/(") :: after)
  /\ In (LRoute GET "/users" (String.eqb "/users") envRegex Sample.routeUsers)
        (fst (buildApp envRegex [])).
Proof.
  assert (Hp : pathToRegexp (routePath envRegex routeRegex)
               = inl (Js.mkError None "Invalid regular expression: /users/("))
    by reflexivity.
  pose proof (invalid_route_regex_is_reported envRegex [] [] [Sample.routeUsers]
                routeRegex _ eq_refl eq_refl Hp eq_refl) as W.
  split; [exact Hp|]. split; [exact (proj1 W)|].
  exact (proj2 (proj2 W) Sample.routeUsers (String.eqb "/users")
           (or_intror (or_introl eq_refl)) eq_refl eq_refl).
Defined.

Lemma address_without_scheme_is_refused_witness :
  hasChar ":"%char "example.com" = false
  /\ isValidURL "example.com" = false
  /\ enableProxy [] (Sample.environment EmptyString [] [] "example.com") = [].
Proof.
  assert (Hn : hasChar ":"%char "example.com" = false) by reflexivity.
  pose proof (address_without_scheme_is_refused "example.com" (or_introl Hn)) as W.
  split; [exact Hn|]. split; [exact (proj1 W)|].
  exact (proj2 W [] (Sample.environment EmptyString [] [] "example.com") eq_refl).
Defined.

(** A numeric host with a port has no scheme; a host name with a port
    is read as a scheme and its path. *)
Example sample_addresses :
  isValidURL "127.0.0.1:8080" = false
  /\ isValidURL "localhost:3000" = true
  /\ isValidURL "http://localhost:3000" = true.
Proof. repeat split. Qed.

(** The life cycle on the sample: started, then stopped or deleted. *)
Example sample_life_cycle :
  instances (stop "env-1" (start Listening Sample.envOrigin
                             (Sample.serviceWith Sample.envOrigin)))
  = instances (Sample.serviceWith Sample.envOrigin)
  /\ shownAlerts (start (ListenError (Js.mkError (Some "EADDRINUSE") "in use"))
                    envRegex (Sample.serviceWith envRegex))
     = [("error", "Invalid regular expression in route: users/(");
        ("error", "Port is already in use")].
Proof. split; [vm_compute|]; reflexivity. Qed.

(** * The statements on the second deployment *)

#[local] Existing Instance Strict.platform.
#[local] Existing Instance Strict.settings.

Lemma unreadable_file_ends_empty_witness :
  readFileSync "data"
  = inl (Js.mkError (Some "EISDIR") "EISDIR: illegal operation on a directory, read")
  /\ resolveBody EmptyString Strict.routeFolder (Sample.request GET "/folder")
       Sample.start0
     = (ended (withDetectedType EmptyString Strict.routeFolder Sample.start0), inr tt)
  /\ Response.body
       (res (ended (withDetectedType EmptyString Strict.routeFolder Sample.start0)))
     = None.
Proof.
  assert (R : readFileSync "data"
              = inl (Js.mkError (Some "EISDIR")
                       "EISDIR: illegal operation on a directory, read"))
    by reflexivity.
  assert (C : Js.code (Js.mkError (Some "EISDIR")
                         "EISDIR: illegal operation on a directory, read")
              <> Some "ENOENT") by discriminate.
  pose proof (unreadable_file_ends_empty EmptyString Strict.routeFolder
                (Sample.request GET "/folder") "data" _ Sample.start0
                eq_refl eq_refl eq_refl (fun _ => eq_refl) C eq_refl
                (or_introl R)) as W.
  split; [exact R|]. split; [exact (proj1 W) | exact (proj1 (proj2 W))].
Defined.

Lemma invalid_content_type_is_reported_witness :
  setCharset "garbage" = None
  /\ resolveBody "garbage" Strict.routeGarbage (Sample.request GET "/garbage")
       (withType "garbage" Sample.start0)
     = (errorSent (INVALID_CONTENT_TYPE Errors) true (withType "garbage" Sample.start0),
        inr tt).
Proof.
  assert (C : setCharset "garbage" = None) by reflexivity.
  split; [exact C|].
  exact (proj1 (invalid_content_type_is_reported "garbage" Strict.routeGarbage
                  (Sample.request GET "/garbage") "hello" "garbage"
                  (withType "garbage" Sample.start0)
                  (conj eq_refl (conj eq_refl eq_refl))
                  eq_refl eq_refl eq_refl eq_refl eq_refl eq_refl C)).
Defined.

(** A helper the renderer does not know is named in the answer, and
    the whole handler sends the refusal of the content type. *)
Example strict_answers :
  Response.body
    (res (fst (resolveBody "application/json"
                 (Sample.route GET "h" "{{helper}}" [] EmptyString [])
                 (Sample.request GET "/h") Sample.start0)))
  = Some (BString "Missing helper: helper")
  /\ Response.body
       (res (fst (routeHandler Sample.envOrigin Strict.routeGarbage
                    (Sample.request GET "/garbage") Sample.start0)))
     = Some (BString "Invalid Content-Type").
Proof. split; reflexivity. Qed.

(** * The statements on the deployment with request data *)

#[local] Existing Instance Templated.platform.
#[local] Existing Instance Templated.settings.

